(** * tool/exec.Run: command resolution and execution

    A shallow embedding of [pkg/tool/exec/exec.go]: the command resolver
    [mkCommand], the stream typing [toStreamOutput] and the task runner
    [Run], together with the parts of the Go runtime and of the document
    engine they call.

    Go strings and byte slices are byte sequences: a Go [string] is a Rocq
    [string] (one [ascii] per byte), a [[]byte] is a [list Byte.byte]. *)

From Stdlib Require Import ZArith NArith List String Ascii Bool Lia DecimalString.
From stdpp Require Import gmap strings.
Import ListNotations.

Local Open Scope N_scope.

#[local] Set Warnings "-register-all".


(** ** Go runtime: package strings, unicode, utf8 *)

Module GoStrings.

(** A rune is a Unicode code point. *)
Definition rune := N.

Definition RuneError : rune := 0xFFFD.

(** [unicode.IsSpace]: the Latin-1 white space by the switch of the Go
    function, the rest from the White_Space table. *)
Definition IsSpace (r : rune) : bool :=
  if r <=? 0xFF then
    (r =? 0x09) || (r =? 0x0A) || (r =? 0x0B) || (r =? 0x0C) || (r =? 0x0D)
    || (r =? 0x20) || (r =? 0x85) || (r =? 0xA0)
  else
    (r =? 0x1680) || ((0x2000 <=? r) && (r <=? 0x200A))
    || (r =? 0x2028) || (r =? 0x2029) || (r =? 0x202F) || (r =? 0x205F)
    || (r =? 0x3000).

(** The white space of the spec's sentence: space, tab and newline only. *)
Definition IsSpaceTabNewline (r : rune) : bool :=
  (r =? 0x20) || (r =? 0x09) || (r =? 0x0A).

Definition byteN (c : ascii) : N := N_of_ascii c.

Definition isCont (b : N) : bool := (0x80 <=? b) && (b <=? 0xBF).

Definition between (lo hi b : N) : bool := (lo <=? b) && (b <=? hi).

(** [utf8.DecodeRuneInString]: the rune at the head of [s] and its width in
    bytes; an invalid or short encoding is [RuneError] of width one, the
    empty string [RuneError] of width zero. *)
Definition DecodeRune (s : list ascii) : rune * nat :=
  match s with
  | [] => (RuneError, 0%nat)
  | c0 :: s1 =>
    let b0 := byteN c0 in
    if b0 <? 0x80 then (b0, 1%nat)
    else if between 0xC2 0xDF b0 then
      match s1 with
      | c1 :: _ =>
        let b1 := byteN c1 in
        if isCont b1
        then (N.lor (N.shiftl (N.land b0 0x1F) 6) (N.land b1 0x3F), 2%nat)
        else (RuneError, 1%nat)
      | _ => (RuneError, 1%nat)
      end
    else if between 0xE0 0xEF b0 then
      let lo := if b0 =? 0xE0 then 0xA0 else 0x80 in
      let hi := if b0 =? 0xED then 0x9F else 0xBF in
      match s1 with
      | c1 :: c2 :: _ =>
        let b1 := byteN c1 in
        let b2 := byteN c2 in
        if between lo hi b1 && isCont b2
        then (N.lor (N.shiftl (N.land b0 0x0F) 12)
                (N.lor (N.shiftl (N.land b1 0x3F) 6) (N.land b2 0x3F)), 3%nat)
        else (RuneError, 1%nat)
      | _ => (RuneError, 1%nat)
      end
    else if between 0xF0 0xF4 b0 then
      let lo := if b0 =? 0xF0 then 0x90 else 0x80 in
      let hi := if b0 =? 0xF4 then 0x8F else 0xBF in
      match s1 with
      | c1 :: c2 :: c3 :: _ =>
        let b1 := byteN c1 in
        let b2 := byteN c2 in
        let b3 := byteN c3 in
        if between lo hi b1 && isCont b2 && isCont b3
        then (N.lor (N.shiftl (N.land b0 0x07) 18)
                (N.lor (N.shiftl (N.land b1 0x3F) 12)
                   (N.lor (N.shiftl (N.land b2 0x3F) 6) (N.land b3 0x3F))),
              4%nat)
        else (RuneError, 1%nat)
      | _ => (RuneError, 1%nat)
      end
    else (RuneError, 1%nat)
  end.

(** [for i, r := range s]: the runes of [s] in order, each with the bytes
    that encode it.  Every step consumes at least one byte, so a fuel of
    [length s] steps is never exhausted ([ranged_concat]). *)
Fixpoint rangeFuel (fuel : nat) (s : list ascii) : list (rune * list ascii) :=
  match fuel with
  | O => []
  | S fuel' =>
    match s with
    | [] => []
    | _ :: _ =>
      let '(r, w) := DecodeRune s in
      (r, firstn w s) :: rangeFuel fuel' (skipn w s)
    end
  end.

Definition ranged (s : list ascii) : list (rune * list ascii) :=
  rangeFuel (length s) s.

(** The loop of [strings.FieldsFunc].  Go keeps the start index of the field
    being read ([start], negative between fields) and cuts [s[start:end]]
    when a separator is met; here [cur] is that substring, [None] between
    fields. *)
Fixpoint fieldsLoop (f : rune -> bool) (l : list (rune * list ascii))
    (cur : option (list ascii)) : list (list ascii) :=
  match l with
  | [] => match cur with Some fld => [fld] | None => [] end
  | (r, bs) :: l' =>
    if f r then
      match cur with
      | Some fld => fld :: fieldsLoop f l' None
      | None => fieldsLoop f l' None
      end
    else
      fieldsLoop f l' (Some (match cur with Some fld => fld ++ bs | None => bs end))
  end.

Definition FieldsFunc (s : string) (f : rune -> bool) : list string :=
  map string_of_list_ascii (fieldsLoop f (ranged (list_ascii_of_string s)) None).

(** [strings.Fields]: split around each run of white space as defined by
    [unicode.IsSpace].  (Go's fast path for all-ASCII strings computes the
    same fields with a byte table.) *)
Definition Fields (s : string) : list string := FieldsFunc s IsSpace.

(** The spec's words, "tokenize on runs of white space", over the runes of
    the string: separators are dropped, and every token is a maximal run of
    runes that are not separators (it ends at the end of the string or at a
    separator). *)
Inductive SplitRuns (f : rune -> bool)
    : list (rune * list ascii) -> list (list ascii) -> Prop :=
| SplitRuns_nil : SplitRuns f [] []
| SplitRuns_sep r bs l toks :
    f r = true -> SplitRuns f l toks -> SplitRuns f ((r, bs) :: l) toks
| SplitRuns_run t l toks :
    t <> [] ->
    Forall (fun c => f (fst c) = false) t ->
    (l = [] \/ exists r bs l', l = (r, bs) :: l' /\ f r = true) ->
    SplitRuns f l toks ->
    SplitRuns f (t ++ l) (concat (map snd t) :: toks).

End GoStrings.

Import GoStrings.

(** ** The configuration document: package cue *)

Module Cue.

(** Modelled from the spec: the kind tags of package cue (the [Kind]
    constants are declared outside [pkg/tool/exec]).  A kind is a bit mask;
    the value of a disjunction of types has several bits set. *)
Definition Kind := N.
Definition BottomKind : Kind := 0.
Definition NullKind : Kind := 1.
Definition BoolKind : Kind := 2.
Definition IntKind : Kind := 4.
Definition FloatKind : Kind := 8.
Definition StringKind : Kind := 16.
Definition BytesKind : Kind := 32.
Definition FuncKind : Kind := 64.
Definition ListKind : Kind := 128.
Definition StructKind : Kind := 256.
Definition NumberKind : Kind := N.lor IntKind FloatKind.
Definition TopKind : Kind := 511.

(** The errors of the conversion functions of a document value. *)
Inductive ValueError :=
| NotExists
| IsError (msg : string)
| KindMismatch (got want : Kind)
| NonConcrete (k : Kind).

(** Modelled from the spec: the document value [cue.Value] (declared outside
    [pkg/tool/exec]), a self-describing tree of fields tagged with a kind:
    absent, erroneous, null, bool, int, float, string, bytes, list, struct,
    a type that is not yet a concrete value ([VType], for instance the
    field [stdout: string] or [stdout: string | bytes]), or a disjunction
    with a marked default ([VDefault d k] is [*d | t] where the kinds of [t]
    are [k], for instance [*null | string | bytes]).  A float carries its
    canonical decimal text. *)
Inductive Value :=
| VAbsent
| VError (msg : string)
| VNull
| VBool (b : bool)
| VInt (z : Z)
| VFloat (text : string)
| VString (s : string)
| VBytes (b : list Byte.byte)
| VList (elems : list Value)
| VStruct (fields : list (string * Value))
| VType (k : Kind)
| VDefault (d : Value) (k : Kind).

(** Modelled from the spec: [Value.IncompleteKind] of package cue, a mask of
    all kinds the value may be. *)
Fixpoint IncompleteKind (v : Value) : Kind :=
  match v with
  | VAbsent | VError _ => BottomKind
  | VNull => NullKind
  | VBool _ => BoolKind
  | VInt _ => IntKind
  | VFloat _ => FloatKind
  | VString _ => StringKind
  | VBytes _ => BytesKind
  | VList _ => ListKind
  | VStruct _ => StructKind
  | VType k => k
  | VDefault d k => N.lor (IncompleteKind d) k
  end.

(** Modelled from the spec: a value is concrete when it is an atom, a list
    or a struct, not a type or a disjunction still to be resolved. *)
Definition IsConcrete (v : Value) : bool :=
  match v with
  | VNull | VBool _ | VInt _ | VFloat _ | VString _ | VBytes _
  | VList _ | VStruct _ => true
  | _ => false
  end.

(** Modelled from the spec: [Value.Kind] of package cue, the kind of a
    concrete value and [BottomKind] for any other. *)
Definition Kind_of (v : Value) : Kind :=
  if IsConcrete v then IncompleteKind v else BottomKind.

(** Modelled from the spec: [Value.Default] of package cue, the marked
    default of a disjunction, the value itself where there is none. *)
Definition Default (v : Value) : Value :=
  match v with
  | VDefault d _ => d
  | _ => v
  end.

(** Modelled from the spec: [Value.Exists] of package cue. *)
Definition Exists (v : Value) : bool :=
  match v with VAbsent => false | _ => true end.

(** Modelled from the spec: the kind check behind the conversion functions
    of package cue, which "fail with a typed error on mismatch": no error
    exactly when the value is not erroneous and, for a wanted kind, is a
    concrete value of that kind. *)
Definition checkKind (v : Value) (want : Kind) : option ValueError :=
  match v with
  | VAbsent => Some NotExists
  | VError msg => Some (IsError msg)
  | _ =>
    if want =? BottomKind then None
    else if N.land (IncompleteKind v) want =? 0
    then Some (KindMismatch (IncompleteKind v) want)
    else if IsConcrete v then None
    else Some (NonConcrete (IncompleteKind v))
  end.

(** Modelled from the spec: [Value.Err] of package cue, the error the value
    stands for, if any. *)
Definition Err (v : Value) : option ValueError := checkKind v BottomKind.

(** Modelled from the spec: [Value.Null] of package cue, an error unless
    the value (after its default) is null. *)
Definition Null (v : Value) : option ValueError :=
  checkKind (Default v) NullKind.

(** Modelled from the spec: [Value.Bool] of package cue; the Go function
    returns [false] together with the error. *)
Definition Bool (v : Value) : bool * option ValueError :=
  match Default v with
  | VBool b => (b, None)
  | d => (false, checkKind d BoolKind)
  end.

(** Modelled from the spec: [Value.String] of package cue; the Go function
    returns the empty string together with the error. *)
Definition String (v : Value) : string * option ValueError :=
  match Default v with
  | VString s => (s, None)
  | d => (EmptyString, checkKind d StringKind)
  end.

(** Modelled from the spec: [Value.List] of package cue, as the elements the
    returned iterator yields; the iterator of a value that is not a list
    yields nothing (its error is dropped by every caller here). *)
Definition List (v : Value) : list Value :=
  match Default v with
  | VList elems => elems
  | _ => []
  end.

(** Modelled from the spec: [Value.Fields] of package cue, as the labels and
    values the returned iterator yields, in the document's field order; the
    iterator of a value that is not a struct yields nothing. *)
Definition Fields (v : Value) : list (string * Value) :=
  match Default v with
  | VStruct fields => fields
  | _ => []
  end.

(** Modelled from the spec: [Value.Reader] of package cue, a reader over the
    content of a string or bytes value. *)
Definition Reader (v : Value) : list Byte.byte * option ValueError :=
  match Default v with
  | VBytes b => (b, None)
  | VString s => (list_byte_of_string s, None)
  | d => ([], checkKind d (N.lor StringKind BytesKind))
  end.

(** The first field with the given label, the non-existing value if there
    is none. *)
Fixpoint lookupField (name : string) (fields : list (string * Value)) : Value :=
  match fields with
  | [] => VAbsent
  | (label, v) :: rest =>
    if String.eqb label name then v else lookupField name rest
  end.

(** Modelled from the spec: [Value.LookupPath] of package cue for a path of
    one label, the field's value or the non-existing value. *)
Definition LookupPath (v : Value) (name : string) : Value :=
  match v with
  | VStruct fields => lookupField name fields
  | _ => VAbsent
  end.

(** Modelled from the spec: [fmt.Sprint] of a number of the document, its
    canonical decimal text. *)
Definition Sprint (v : Value) : string :=
  match v with
  | VInt z => NilZero.string_of_int (Z.to_int z)
  | VFloat text => text
  | _ => EmptyString
  end.

End Cue.

Import Cue.

(** ** Errors *)

(** The errors [internal/task.Context] accumulates in its [Err] field. *)
Inductive TaskErr :=
| CouldNotFindField (field : string)
| ErrorLookingUpField (field : string) (e : ValueError)
| InvalidStringArgument (e : ValueError).

(** The errors [mkCommand] and [Run] return.  A formatted message is kept
    as its format and arguments: [ErrCommandFailed doc perr] is
    [fmt.Errorf("command %q failed: %v", doc, err)] where [perr] is the text
    of [err]. *)
Inductive Error :=
| ErrTask (es : list TaskErr)
| ErrEmptyCommandList
| ErrEmptyCommand
| ErrValue (e : ValueError)
| ErrInvalidEnvWrapped (e : ValueError) (v : Value)
| ErrInvalidEnvValue (v : Value)
| ErrInvalidInput (e : ValueError)
| ErrInvalidBool (e : ValueError)
| ErrCommandFailed (doc : string) (perr : string).

(** What a call does: return a value, return an error, or panic. *)
Inductive Outcome (A : Type) :=
| Returns (a : A)
| Fails (e : Error)
| Panics (msg : string).

Arguments Returns {A} a.
Arguments Fails {A} e.
Arguments Panics {A} msg.

#[global] Instance Outcome_bind : MBind Outcome := fun A B k o =>
  match o with
  | Returns a => k a
  | Fails e => Fails e
  | Panics msg => Panics msg
  end.

(** ** The task context: package internal/task *)

(** An ambient standard stream of the caller, named by a number. *)
Definition Handle := N.

(** A [context.Context] of Go, the cancellation-bearing execution context of
    a task, named by a number.  The type has no nil: a caller of the runner
    supplies a context, and [exec.CommandContext] panics on a nil one. *)
Definition GoContext := N.

Module Task.

(** Modelled from the spec: [task.Context] (declared outside
    [pkg/tool/exec]): the execution context it embeds (the field [Context]
    of the Go struct, here [Context_]), the ambient stdio handles, the
    working object and the error accumulated so far ([nil] is the empty
    list). *)
Record Context := {
  Context_ : GoContext;
  Stdin : Handle;
  Stdout : Handle;
  Stderr : Handle;
  Obj : Value;
  Err : list TaskErr
}.

(** Modelled from the spec: [Context.addErr], which appends to [Err]. *)
Definition addErr (c : Context) (e : TaskErr) : Context :=
  {| Context_ := Context_ c;
     Stdin := Stdin c; Stdout := Stdout c; Stderr := Stderr c;
     Obj := Obj c; Err := Err c ++ [e] |}.

(** Modelled from the spec: [Context.Lookup], the field of the working
    object; a missing or erroneous field is recorded in [Err]. *)
Definition Lookup (c : Context) (field : string) : Value * Context :=
  let f := LookupPath (Obj c) field in
  if negb (Exists f) then (VAbsent, addErr c (CouldNotFindField field))
  else match Cue.Err f with
       | Some e => (f, addErr c (ErrorLookingUpField field e))
       | None => (f, c)
       end.

(** Modelled from the spec: [Context.String], the field as a string; a
    field that is not a string is recorded in [Err]. *)
Definition String (c : Context) (field : string) : string * Context :=
  let f := LookupPath (Obj c) field in
  match Cue.String f with
  | (value, Some e) => (value, addErr c (InvalidStringArgument e))
  | (value, None) => (value, c)
  end.

End Task.

(** ** Lexical paths: package path/filepath (on a POSIX system) *)

Module Filepath.

Fixpoint stripSlashes (reversed : list ascii) : list ascii :=
  match reversed with
  | c :: rest => if Ascii.eqb c "/" then stripSlashes rest else reversed
  | [] => []
  end.

Fixpoint lastElement (reversed : list ascii) : list ascii :=
  match reversed with
  | c :: rest => if Ascii.eqb c "/" then [] else c :: lastElement rest
  | [] => []
  end.

(** [filepath.Base]: the last element of the path, trailing separators
    removed; ["."] for the empty path and ["/"] for a path of separators
    only. *)
Definition Base (path : string) : string :=
  if String.eqb path "" then "."%string
  else
    let stripped := stripSlashes (rev (list_ascii_of_string path)) in
    let element := string_of_list_ascii (rev (lastElement stripped)) in
    if String.eqb element "" then "/"%string else element.

(** The elements of a path between its separators, empty ones included. *)
Fixpoint elements (path : string) : list string :=
  match path with
  | EmptyString => [EmptyString]
  | String.String c rest =>
    if Ascii.eqb c "/" then EmptyString :: elements rest
    else match elements rest with
         | e :: es => String.String c e :: es
         | [] => [String.String c EmptyString]
         end
  end.

(** The loop of [filepath.Clean] over the elements, [out] being the elements
    kept so far, the last one first: an empty element and ["."] are dropped,
    [".."] removes the element before it, is dropped at the root and kept at
    the start of a path that is not rooted. *)
Fixpoint cleanLoop (rooted : bool) (elems out : list string) : list string :=
  match elems with
  | [] => out
  | e :: rest =>
    if String.eqb e "" || String.eqb e "." then cleanLoop rooted rest out
    else if String.eqb e ".." then
      match out with
      | top :: out' =>
        if String.eqb top ".." then cleanLoop rooted rest (e :: out)
        else cleanLoop rooted rest out'
      | [] => if rooted then cleanLoop rooted rest []
              else cleanLoop rooted rest [e]
      end
    else cleanLoop rooted rest (e :: out)
  end.

(** [filepath.Clean]: the shortest path that names the same file by purely
    lexical processing. *)
Definition Clean (path : string) : string :=
  if String.eqb path "" then "."%string
  else
    let rooted := String.prefix "/" path in
    let out := String.concat "/" (rev (cleanLoop rooted (elements path) [])) in
    if rooted then ("/" +:+ out)%string
    else if String.eqb out "" then "."%string else out.

(** [filepath.IsAbs] *)
Definition IsAbs (path : string) : bool := String.prefix "/" path.

(** [filepath.Join] of two elements: empty elements are ignored and the
    result is cleaned. *)
Definition Join (a b : string) : string :=
  if String.eqb a "" then (if String.eqb b "" then EmptyString else Clean b)
  else if String.eqb b "" then Clean a
  else Clean (a +:+ "/" +:+ b)%string.

(** [filepath.Abs], [wd] being the current directory of the calling process
    ([os.Getwd]). *)
Definition Abs (wd path : string) : string :=
  if IsAbs path then Clean path else Join wd path.

End Filepath.

(** ** The child process: package os/exec *)

Module OsExec.

(** Where the child reads its input from: an ambient handle, or a reader
    over bytes taken from the document. *)
Inductive Input :=
| InHandle (h : Handle)
| InReader (content : list Byte.byte).

(** The two buffers [Run] allocates with [new(bytes.Buffer)]. *)
Inductive BufferId := BufStdout | BufStderr.

(** Where the child writes a stream to: an ambient handle, or a buffer. *)
Inductive Output :=
| OutHandle (h : Handle)
| OutBuffer (b : BufferId).

(** The program of a command, which Go keeps in [cmd.Path] and [cmd.Err].
    [exec.Command] keeps a name that has a directory part as it is; a bare
    name it replaces by the file [exec.LookPath] finds for it along PATH,
    and keeps the error of a search that failed in the command.  The search
    reads the file system of the caller, so that its result is kept here as
    the name that was searched for. *)
Inductive Program :=
| AtPath (name : string)
| LookPath (name : string).

(** The program [exec.Command] makes of a name: the search is made when
    [filepath.Base(name) == name]. *)
Definition program (name : string) : Program :=
  if String.eqb (Filepath.Base name) name then LookPath name else AtPath name.

(** [exec.Cmd], with the fields this package sets and the program.  [None]
    is Go's [nil] for the three streams; a [nil] [Env] is the empty list
    ([mkCommand] only ever appends to it, so it is [nil] exactly when it is
    empty). *)
Record Cmd := {
  Path : Program;
  Args : list string;
  Dir : string;
  Env : list string;
  Stdin : option Input;
  Stdout : option Output;
  Stderr : option Output
}.

(** [exec.CommandContext(ctx, name, arg...)]: the program made of the name
    and the argument vector, which starts with the name as given.  The
    context bounds the life of the process in real time, which is the part
    of the operating system; no field of this record keeps it. *)
Definition CommandContext (ctx : GoContext) (name : string)
    (arg : list string) : Cmd :=
  {| Path := program name; Args := name :: arg; Dir := EmptyString;
     Env := []; Stdin := None; Stdout := None; Stderr := None |}.

Definition setDir (c : Cmd) (d : string) : Cmd :=
  {| Path := Path c; Args := Args c; Dir := d; Env := Env c;
     Stdin := Stdin c; Stdout := Stdout c; Stderr := Stderr c |}.

Definition setEnv (c : Cmd) (e : list string) : Cmd :=
  {| Path := Path c; Args := Args c; Dir := Dir c; Env := e;
     Stdin := Stdin c; Stdout := Stdout c; Stderr := Stderr c |}.

Definition setStdin (c : Cmd) (i : option Input) : Cmd :=
  {| Path := Path c; Args := Args c; Dir := Dir c; Env := Env c;
     Stdin := i; Stdout := Stdout c; Stderr := Stderr c |}.

Definition setStdout (c : Cmd) (o : option Output) : Cmd :=
  {| Path := Path c; Args := Args c; Dir := Dir c; Env := Env c;
     Stdin := Stdin c; Stdout := o; Stderr := Stderr c |}.

Definition setStderr (c : Cmd) (o : option Output) : Cmd :=
  {| Path := Path c; Args := Args c; Dir := Dir c; Env := Env c;
     Stdin := Stdin c; Stdout := Stdout c; Stderr := o |}.

(** What the operating system is asked to start: program, arguments,
    working directory, the environment of the child and its input. *)
Record Process := {
  procPath : Program;
  procArgs : list string;
  procDir : string;
  procEnv : list string;
  procStdin : option Input
}.

(** What a process did: the bytes it wrote to its two output streams and
    the error [Cmd.Run] reports for it ([None] on exit status zero), as the
    error's text. *)
Record Exit := {
  wroteStdout : list Byte.byte;
  wroteStderr : list Byte.byte;
  exitErr : option string
}.

(** The state outside the runner: the environment of the calling process
    ([os.Environ]) and its current directory ([os.Getwd]), what was written
    to the ambient handles, and the processes started so far with the [Cmd]
    each was started from. *)
Record World := {
  environ : list string;
  cwd : string;
  written : list (Handle * list Byte.byte);
  started : list (Cmd * Process)
}.

(** [strings.IndexByte(kv, 0) != -1] *)
Definition hasNUL (kv : string) : bool :=
  existsb (Ascii.eqb Ascii.zero) (list_ascii_of_string kv).

(** [strings.Index(kv, "=")], [None] being Go's [-1]. *)
Fixpoint indexEq (kv : string) : option nat :=
  match kv with
  | EmptyString => None
  | String.String c rest =>
    if Ascii.eqb c "=" then Some O else option_map S (indexEq rest)
  end.

(** The key under which [dedupEnv] files an entry: the text before the
    first ["="], a ["="] at the very start being taken into the key; an
    entry without ["="] has no key. *)
Definition envKey (kv : string) : option string :=
  match indexEq kv with
  | None => None
  | Some O =>
    match kv with
    | String.String _ rest =>
      match indexEq rest with
      | Some j => Some (substring 0 (S j) kv)
      | None => Some EmptyString
      end
    | EmptyString => Some EmptyString
    end
  | Some i => Some (substring 0 i kv)
  end.

(** The loop of [dedupEnv], which walks the entries from the last to the
    first ([env] is the list reversed) and keeps the first entry it sees of
    each key; [saw] is the set of keys seen.  An entry with a NUL byte is
    dropped (and [os/exec], from Go 1.20 on, then refuses to start the
    process, which is an [Exit] with an error of the operating system
    here); an empty entry is dropped, another entry without key is kept. *)
Fixpoint dedupLoop (env : list string) (saw : gset string) : list string :=
  match env with
  | [] => []
  | kv :: rest =>
    if hasNUL kv then dedupLoop rest saw
    else match envKey kv with
         | None =>
           if String.eqb kv "" then dedupLoop rest saw
           else kv :: dedupLoop rest saw
         | Some k =>
           if decide (k ∈ saw) then dedupLoop rest saw
           else kv :: dedupLoop rest ({[ k ]} ∪ saw)
         end
  end.

(** [dedupEnv] of [os/exec]: duplicates removed in favour of later values,
    the order of the entries kept. *)
Definition dedupEnv (env : list string) : list string :=
  rev (dedupLoop (rev env) ∅).

(** The environment [os/exec] gives the child ([Cmd.environ]): "If Env is
    nil, the new process uses the current process's environment", to which
    [PWD] is added as the absolute working directory when [Dir] is set; in
    both cases duplicate keys are removed. *)
Definition childEnv (w : World) (c : Cmd) : list string :=
  dedupEnv
    match Env c with
    | [] =>
      if String.eqb (Dir c) "" then environ w
      else environ w ++ [("PWD=" +:+ Filepath.Abs (cwd w) (Dir c))%string]
    | _ :: _ => Env c
    end.

Definition processOf (w : World) (c : Cmd) : Process :=
  {| procPath := Path c; procArgs := Args c; procDir := Dir c;
     procEnv := childEnv w c; procStdin := Stdin c |}.

Definition toHandle (o : option Output) (data : list Byte.byte)
    : list (Handle * list Byte.byte) :=
  match o with
  | Some (OutHandle h) => [(h, data)]
  | _ => []
  end.

Definition isBuffer (o : option Output) (b : BufferId) : bool :=
  match o, b with
  | Some (OutBuffer BufStdout), BufStdout => true
  | Some (OutBuffer BufStderr), BufStderr => true
  | _, _ => false
  end.

Definition toBuffer (c : Cmd) (x : Exit) (b : BufferId) : list Byte.byte :=
  (if isBuffer (Stdout c) b then wroteStdout x else [])
  ++ (if isBuffer (Stderr c) b then wroteStderr x else []).

Section Run.

(** The behaviour of the operating system: what the started process does. *)
Variable os : Process -> Exit.

(** [Cmd.Run]: start the process, deliver its output to the wired streams,
    wait for it.  Returns the new outside state, the contents of the two
    buffers and the error.  A command [os/exec] refuses to start (its
    program was not found, its environment holds a NUL byte) makes [Cmd.Run]
    return that error with nothing written: one of the answers of [os], an
    [Exit] with an error and no output. *)
Definition Run (c : Cmd) (w : World)
    : World * (BufferId -> list Byte.byte) * option string :=
  let p := processOf w c in
  let x := os p in
  ({| environ := environ w;
      cwd := cwd w;
      written := written w ++ toHandle (Stdout c) (wroteStdout x)
                           ++ toHandle (Stderr c) (wroteStderr x);
      started := started w ++ [(c, p)] |},
   toBuffer c x,
   exitErr x).

End Run.

End OsExec.

(** ** Package exec: [pkg/tool/exec/exec.go] *)

Import OsExec.

Local Open Scope string_scope.
Local Open Scope list_scope.
Local Open Scope N_scope.

(** [type execCmd struct { schema cue.Value }] *)
Record execCmd := { schema : Value }.

Definition newExecCmd (v : Value) : execCmd := {| schema := v |}.

(** A Go [interface{}] holding one of the values [Run] stores in its update
    document. *)
Inductive Any :=
| AnyNil
| AnyBool (b : bool)
| AnyString (s : string)
| AnyBytes (b : list Byte.byte).

(** The first result of [Run]: the zero [cue.Value], [nil], or the update
    document. *)
Inductive Res :=
| ResZeroValue
| ResNil
| ResUpdate (update : gmap string Any).

(** What a call of [Run] does: return [(res, err)], or panic. *)
Inductive RunOutcome :=
| Returned (res : Res) (err : option Error)
| Panicked (msg : string).

(** [toStreamOutput]: the [switch] compares the kind mask with [StringKind]
    and with [BytesKind]; any other mask falls through to [nil]. *)
Definition toStreamOutput (v : Value) (buf : list Byte.byte) : Any :=
  if IncompleteKind v =? StringKind then AnyString (string_of_list_byte buf)
  else if IncompleteKind v =? BytesKind then AnyBytes buf
  else AnyNil.

(** The loop over the remaining elements of a list [cmd] (lines 155-162). *)
Fixpoint cmdListLoop (l : list Value) (args : list string) (doc : string)
    : Outcome (list string * string) :=
  match l with
  | [] => Returns (args, doc)
  | e :: l' =>
    match Cue.String e with
    | (_, Some err) => Fails (ErrValue err)
    | (str, None) => cmdListLoop l' (args ++ [str]) (doc +:+ " " +:+ str)
    end
  end.

(** The loop over [env] as a list (lines 175-183). *)
Fixpoint envListLoop (l : list Value) (env : list string)
    : Outcome (list string) :=
  match l with
  | [] => Returns env
  | e :: l' =>
    let v := Default e in
    match Cue.String v with
    | (_, Some err) => Fails (ErrInvalidEnvWrapped err v)
    | (str, None) => envListLoop l' (env ++ [str])
    end
  end.

(** The loop over [env] as a struct (lines 186-200). *)
Fixpoint envFieldsLoop (l : list (string * Value)) (env : list string)
    : Outcome (list string) :=
  match l with
  | [] => Returns env
  | (label, e) :: l' =>
    let v := Default e in
    let k := Kind_of v in
    str ← (if k =? StringKind then Returns (fst (Cue.String v))
           else if (k =? IntKind) || (k =? FloatKind) || (k =? NumberKind)
           then Returns (Sprint v)
           else Fails (ErrInvalidEnvValue v));
    envFieldsLoop l' (env ++ [label +:+ "=" +:+ str])
  end.

(** The two loops one after the other (lines 173-200): the list case, then
    the struct case, both appending to [cmd.Env]. *)
Definition resolveEnv (env : Value) (cmdEnv : list string)
    : Outcome (list string) :=
  env1 ← envListLoop (Cue.List env) cmdEnv;
  envFieldsLoop (Cue.Fields env) env1.

Definition isNil {A : Type} (l : list A) : bool :=
  match l with [] => true | _ => false end.

(** [err != nil] *)
Definition notNil {A : Type} (err : option A) : bool :=
  match err with Some _ => true | None => false end.

(** [mkCommand]: the command, its display form, or an error.  Indexing the
    empty result of [strings.Fields] at line 142 panics with the run-time
    error of Go for an index out of range.  [Lookup] and
    [String] change the [Err] field of the context only, so [Obj] is read
    from the context as given. *)
Definition mkCommand (ctx : Task.Context) : Outcome (Cmd * string) :=
  let '(v, ctx1) := Task.Lookup ctx "cmd" in
  if negb (isNil (Task.Err ctx1)) then Fails (ErrTask (Task.Err ctx1))
  else
    '(bin, args, doc) ←
      (if Kind_of v =? StringKind then
         let '(str, ctx2) := Task.String ctx1 "cmd" in
         let list_ := GoStrings.Fields str in
         match list_ with
         | [] => Panics "runtime error: index out of range [0] with length 0"
         | bin :: rest => Returns (bin, [] ++ rest, str)
         end
       else if Kind_of v =? ListKind then
         match Cue.List v with
         | [] => Fails ErrEmptyCommandList
         | first :: rest =>
           match Cue.String first with
           | (_, Some err) => Fails (ErrValue err)
           | (bin, None) =>
             '(args, doc) ← cmdListLoop rest [] ("" +:+ bin);
             Returns (bin, args, doc)
           end
         end
       else Returns ("", [], ""));
    if String.eqb bin "" then Fails ErrEmptyCommand
    else
      let cmd := CommandContext (Task.Context_ ctx) bin args in
      let cmd := setDir cmd (fst (Cue.String (LookupPath (Task.Obj ctx) "dir"))) in
      let env := LookupPath (Task.Obj ctx) "env" in
      cmdEnv ← resolveEnv env (Env cmd);
      Returns (setEnv cmd cmdEnv, doc).

(** The closure [stream] of [Run] (lines 54-60): the field and [true] when
    the lookup is no error and the field is not null. *)
Definition stream (object : Value) (name : string) : Value * bool :=
  let c := LookupPath object name in
  let err := Cue.Null c in
  if notNil (Cue.Err c) || negb (notNil err) then (VAbsent, false)
  else (c, true).

Section Runner.

(** Modelled from the spec: [Value.Unify] of package cue.  The unification
    engine is an external collaborator (spec section 1), so the runner is
    verified for every engine. *)
Variable Unify : Value -> Value -> Value.

(** The behaviour of the operating system. *)
Variable os : Process -> Exit.

(** The method [Run] of [execCmd] (lines 45-114). *)
Definition Run (c : execCmd) (ctx : Task.Context) (w : World)
    : World * RunOutcome :=
  match mkCommand ctx with
  | Panics msg => (w, Panicked msg)
  | Fails err => (w, Returned ResZeroValue (Some err))
  | Returns (cmd, doc) =>
    let object := Unify (Task.Obj ctx) (schema c) in
    let '(v, ok) := stream object "stdin" in
    let '(stdin, err) :=
      if negb ok then (Some (InHandle (Task.Stdin ctx)), None)
      else match Cue.Reader v with
           | (r, None) => (Some (InReader r), None)
           | (_, Some e) => (None, Some e)
           end in
    match err with
    | Some e => (w, Returned ResNil (Some (ErrInvalidInput e)))
    | None =>
      let cmd := setStdin cmd stdin in
      let cmd := setStdout cmd (Some (OutHandle (Task.Stdout ctx))) in
      let cmd := setStderr cmd (Some (OutHandle (Task.Stderr ctx))) in
      let '(outVal, captureOut) := stream object "stdout" in
      let cmd := if captureOut then setStdout cmd (Some (OutBuffer BufStdout))
                 else cmd in
      let '(errVal, captureErr) := stream object "stderr" in
      let cmd := if captureErr then setStderr cmd (Some (OutBuffer BufStderr))
                 else cmd in
      let v := LookupPath object "mustSucceed" in
      match Cue.Bool v with
      | (_, Some e) => (w, Returned ResNil (Some (ErrInvalidBool e)))
      | (mustSucceed, None) =>
        let update : gmap string Any := ∅ in
        let '(w', buffers, err) := OsExec.Run os cmd w in
        let stdout := buffers BufStdout in
        let stderr := buffers BufStderr in
        let update := <["success" := AnyBool (negb (notNil err))]> update in
        let update :=
          if captureOut
          then <["stdout" := toStreamOutput outVal stdout]> update
          else update in
        let update :=
          if captureErr then
            let stderr :=
              match err with
              | Some text =>
                if (length stderr =? 0)%nat
                then stderr ++ list_byte_of_string text
                else stderr
              | None => stderr
              end in
            <["stderr" := toStreamOutput errVal stderr]> update
          else update in
        match err with
        | None => (w', Returned (ResUpdate update) None)
        | Some text =>
          if mustSucceed
          then (w', Returned ResNil (Some (ErrCommandFailed doc text)))
          else (w', Returned (ResUpdate update) None)
        end
      end
    end
  end.

End Runner.

(** ** Vocabulary of the properties *)

(** The field is present: the lookup gave a value that is no error. *)
Definition isPresent (v : Value) : bool :=
  match v with
  | VAbsent | VError _ => false
  | _ => true
  end.

(** The field is null (after its default). *)
Definition isNull (v : Value) : bool :=
  match Default v with
  | VNull => true
  | _ => false
  end.

(** The field resolves to a boolean (after its default). *)
Definition isBool (v : Value) : bool :=
  match Default v with
  | VBool _ => true
  | _ => false
  end.

(** The field resolves to a string (after its default). *)
Definition isString (v : Value) : bool :=
  match Default v with
  | VString _ => true
  | _ => false
  end.

(** The capture directive as the spec words it: present and null. *)
Definition presentAndNull (v : Value) : bool := isPresent v && isNull v.

(** The capture directive the runner obeys: present and not null. *)
Definition presentNotNull (v : Value) : bool := isPresent v && negb (isNull v).

(** The stdin wiring does not fail: stdin is not fed from the document, or
    the field has a string or bytes content to read. *)
Definition stdinReadable (object : Value) : bool :=
  negb (presentNotNull (LookupPath object "stdin"))
  || negb (notNil (snd (Cue.Reader (LookupPath object "stdin")))).

(** The contents of the stderr buffer when the result is built: what the
    child wrote, or the text of the process error if it wrote nothing. *)
Definition finalStderr (x : Exit) : list Byte.byte :=
  match exitErr x, wroteStderr x with
  | Some text, [] => list_byte_of_string text
  | _, wrote => wrote
  end.

(** [env] as a struct of string fields, and as the list of ["K=V"] strings
    with the same keys, values and order. *)
Definition envStruct (kvs : list (string * string)) : Value :=
  VStruct (map (fun kv => (fst kv, VString (snd kv))) kvs).

Definition envList (kvs : list (string * string)) : Value :=
  VList (map (fun kv => VString (fst kv +:+ "=" +:+ snd kv)) kvs).

(** A run of runes ends at a boundary: the end of the string or a
    separator. *)
Definition atBoundary (f : rune -> bool) (l : list (rune * list ascii)) : Prop :=
  l = [] \/ exists r bs l', l = (r, bs) :: l' /\ f r = true.

(** The command [mkCommand] returns for a binary, its arguments, the [dir]
    field and the resolved environment. *)
Definition resolved (bin : string) (args : list string) (ctx : Task.Context)
    (cmdEnv : list string) : Cmd :=
  {| Path := program bin; Args := bin :: args;
     Dir := fst (Cue.String (LookupPath (Task.Obj ctx) "dir"));
     Env := cmdEnv; Stdin := None; Stdout := None; Stderr := None |}.

(** The command as [Run] wires it before it starts the process: the three
    streams follow the directives of the merged document. *)
Definition wired (ctx : Task.Context) (object : Value) (cmd : Cmd) : Cmd :=
  {| Path := Path cmd; Args := Args cmd; Dir := Dir cmd; Env := Env cmd;
     Stdin :=
       if presentNotNull (LookupPath object "stdin")
       then Some (InReader (fst (Cue.Reader (LookupPath object "stdin"))))
       else Some (InHandle (Task.Stdin ctx));
     Stdout :=
       if presentNotNull (LookupPath object "stdout")
       then Some (OutBuffer BufStdout)
       else Some (OutHandle (Task.Stdout ctx));
     Stderr :=
       if presentNotNull (LookupPath object "stderr")
       then Some (OutBuffer BufStderr)
       else Some (OutHandle (Task.Stderr ctx)) |}.

(** The update document [Run] builds from what the process did. *)
Definition updateOf (object : Value) (x : Exit) : gmap string Any :=
  let update := <["success" := AnyBool (negb (notNil (exitErr x)))]> ∅ in
  let update :=
    if presentNotNull (LookupPath object "stdout")
    then <["stdout" := toStreamOutput (LookupPath object "stdout") (wroteStdout x)]> update
    else update in
  if presentNotNull (LookupPath object "stderr")
  then <["stderr" := toStreamOutput (LookupPath object "stderr") (finalStderr x)]> update
  else update.

(** The outside state after the process ran. *)
Definition after (w : World) (cmd : Cmd) (x : Exit) : World :=
  {| environ := environ w;
     cwd := cwd w;
     written := written w ++ toHandle (Stdout cmd) (wroteStdout x)
                          ++ toHandle (Stderr cmd) (wroteStderr x);
     started := started w ++ [(cmd, processOf w cmd)] |}.

(** The result of [Run] once the process has run. *)
Definition finish (object : Value) (doc : string) (mustSucceed : bool)
    (x : Exit) : RunOutcome :=
  match exitErr x with
  | None => Returned (ResUpdate (updateOf object x)) None
  | Some text =>
    if mustSucceed then Returned ResNil (Some (ErrCommandFailed doc text))
    else Returned (ResUpdate (updateOf object x)) None
  end.

(** The five ways a call of [Run] can go: the resolver panics, the resolver
    fails, the stdin field cannot be read, [mustSucceed] is no boolean, or
    the process is started. *)
Inductive RunCase (Unify : Value -> Value -> Value) (os : Process -> Exit)
    (c : execCmd) (ctx : Task.Context) (w : World)
    : World * RunOutcome -> Prop :=
| CasePanics msg :
    mkCommand ctx = Panics msg -> RunCase Unify os c ctx w (w, Panicked msg)
| CaseUnresolved err :
    mkCommand ctx = Fails err ->
    RunCase Unify os c ctx w (w, Returned ResZeroValue (Some err))
| CaseInvalidInput cmd doc e :
    mkCommand ctx = Returns (cmd, doc) ->
    stdinReadable (Unify (Task.Obj ctx) (schema c)) = false ->
    RunCase Unify os c ctx w (w, Returned ResNil (Some (ErrInvalidInput e)))
| CaseInvalidBool cmd doc b e :
    mkCommand ctx = Returns (cmd, doc) ->
    stdinReadable (Unify (Task.Obj ctx) (schema c)) = true ->
    Cue.Bool (LookupPath (Unify (Task.Obj ctx) (schema c)) "mustSucceed")
    = (b, Some e) ->
    RunCase Unify os c ctx w (w, Returned ResNil (Some (ErrInvalidBool e)))
| CaseProcess cmd doc mustSucceed :
    mkCommand ctx = Returns (cmd, doc) ->
    stdinReadable (Unify (Task.Obj ctx) (schema c)) = true ->
    Cue.Bool (LookupPath (Unify (Task.Obj ctx) (schema c)) "mustSucceed")
    = (mustSucceed, None) ->
    RunCase Unify os c ctx w
      (after w (wired ctx (Unify (Task.Obj ctx) (schema c)) cmd)
         (os (processOf w (wired ctx (Unify (Task.Obj ctx) (schema c)) cmd))),
       finish (Unify (Task.Obj ctx) (schema c)) doc mustSucceed
         (os (processOf w (wired ctx (Unify (Task.Obj ctx) (schema c)) cmd)))).

(** The stream typing of [toStreamOutput] spelled out by cases on the
    declared kind. *)
Definition typed (v : Value) (buf : list Byte.byte) : Any :=
  if IncompleteKind v =? StringKind then AnyString (string_of_list_byte buf)
  else if IncompleteKind v =? BytesKind then AnyBytes buf
  else AnyNil.

(** What an update document holds for a process that did [x]: the success
    flag, the captured streams under [stdout] and [stderr], and no other
    key. *)
Definition holds (object : Value) (x : Exit) (update : gmap string Any) : Prop :=
  update !! "success" = Some (AnyBool (negb (notNil (exitErr x))))
  /\ update !! "stdout"
     = (if presentNotNull (LookupPath object "stdout")
        then Some (typed (LookupPath object "stdout") (wroteStdout x))
        else None)
  /\ update !! "stderr"
     = (if presentNotNull (LookupPath object "stderr")
        then Some (typed (LookupPath object "stderr") (finalStderr x))
        else None)
  /\ forall key : string,
       key <> "success" -> key <> "stdout" -> key <> "stderr" ->
       update !! key = None.

(** The errors of the resolver: every error but the three [Run] makes
    itself. *)
Definition resolverError (err : Error) : Prop :=
  match err with
  | ErrInvalidInput _ | ErrInvalidBool _ | ErrCommandFailed _ _ => False
  | _ => True
  end.

(** ** Concrete documents *)

(** Modelled from the spec: [Value.Unify] of package cue at the
    unconstrained schema [_], where the merged document is the working
    object itself.  The concrete runs below all use that schema. *)
Definition unifyTop (object schema : Value) : Value := object.

Definition topSchema : execCmd := newExecCmd (VType TopKind).

(** A context with ambient handles 0, 1 and 2 over the given fields. *)
Definition contextOf (fields : list (string * Value)) : Task.Context :=
  {| Task.Context_ := 0;
     Task.Stdin := 0; Task.Stdout := 1; Task.Stderr := 2;
     Task.Obj := VStruct fields; Task.Err := [] |}.

Definition world0 : World :=
  {| environ := ["HOME=/root"; "PATH=/bin"]; cwd := "/root"; written := [];
     started := [] |}.

(** A process that prints [hello] and exits with status zero. *)
Definition osHello (p : Process) : Exit :=
  {| wroteStdout := list_byte_of_string "hello"; wroteStderr := [];
     exitErr := None |}.

(** A process that writes nothing and exits with status one. *)
Definition osFalse (p : Process) : Exit :=
  {| wroteStdout := []; wroteStderr := []; exitErr := Some "exit status 1" |}.

(** A carriage return. *)
Definition CR : string := String.String "013"%char EmptyString.

(** [cmd: "echo hello", stdout: null, mustSucceed: false] *)
Definition docStdoutNull : Task.Context :=
  contextOf [("cmd", VString "echo hello"); ("stdout", VNull);
             ("mustSucceed", VBool false)].

(** [cmd: "echo hello", stdin: "input", stdout: string, mustSucceed: false] *)
Definition docCapture : Task.Context :=
  contextOf [("cmd", VString "echo hello"); ("stdin", VString "input");
             ("stdout", VType StringKind); ("mustSucceed", VBool false)].

(** The command [Run] starts for [docCapture]. *)
Definition cmdCapture : Cmd :=
  {| Path := program "echo"; Args := ["echo"; "hello"]; Dir := ""; Env := [];
     Stdin := Some (InReader (list_byte_of_string "input"));
     Stdout := Some (OutBuffer BufStdout);
     Stderr := Some (OutHandle 2) |}.

(** [cmd: "a\rb"]: two words around a carriage return. *)
Definition docCarriageReturn : Task.Context :=
  contextOf [("cmd", VString ("a" +:+ CR +:+ "b"))].

(** [cmd: ""] *)
Definition docEmptyString : Task.Context := contextOf [("cmd", VString "")].

(** [cmd: "ls -l  /tmp", dir: "/", env: ["A=1"]] *)
Definition docLs : Task.Context :=
  contextOf [("cmd", VString "ls -l  /tmp"); ("dir", VString "/");
             ("env", VList [VString "A=1"])].

(** [cmd: "echo hello"], no capture, no [mustSucceed]. *)
Definition docEcho : Task.Context := contextOf [("cmd", VString "echo hello")].

(** [cmd: "echo hello", mustSucceed: "yes"] *)
Definition docMustSucceedString : Task.Context :=
  contextOf [("cmd", VString "echo hello"); ("mustSucceed", VString "yes")].

(** The command [mkCommand] resolves [cmd: "echo hello"] to. *)
Definition cmdEcho : Cmd :=
  {| Path := program "echo"; Args := ["echo"; "hello"]; Dir := ""; Env := [];
     Stdin := None; Stdout := None; Stderr := None |}.

(** [cmd: "env", mustSucceed: false], with no [env] field. *)
Definition docEnv : Task.Context :=
  contextOf [("cmd", VString "env"); ("mustSucceed", VBool false)].

(** [cmd: ["make", "all"], dir: "/src", env: {CC: "gcc"}, mustSucceed: true] *)
Definition docMake : Task.Context :=
  contextOf [("cmd", VList [VString "make"; VString "all"]);
             ("dir", VString "/src");
             ("env", VStruct [("CC", VString "gcc")]);
             ("mustSucceed", VBool true)].


(** [cmd: ["false"], stderr: string, mustSucceed: true] *)
Definition docStderrStrict : Task.Context :=
  contextOf [("cmd", VList [VString "false"]); ("stderr", VType StringKind);
             ("mustSucceed", VBool true)].

(** [cmd: ["false"], stderr: int, mustSucceed: false] *)
Definition docStderrInt : Task.Context :=
  contextOf [("cmd", VList [VString "false"]); ("stderr", VType IntKind);
             ("mustSucceed", VBool false)].

(** [cmd: ["false"], stderr: string, mustSucceed: false] *)
Definition docStderrString : Task.Context :=
  contextOf [("cmd", VList [VString "false"]); ("stderr", VType StringKind);
             ("mustSucceed", VBool false)].

(** The command [mkCommand] resolves [cmd: ["false"]] to. *)
Definition cmdFalse : Cmd :=
  {| Path := program "false"; Args := ["false"]; Dir := ""; Env := [];
     Stdin := None; Stdout := None; Stderr := None |}.

(** [cmd: "echo hello", stdout: bytes, stderr: string | bytes,
    mustSucceed: false] *)
Definition docTyped : Task.Context :=
  contextOf [("cmd", VString "echo hello"); ("stdout", VType BytesKind);
             ("stderr", VType (N.lor StringKind BytesKind));
             ("mustSucceed", VBool false)].

(** [cmd: "echo", env: {WHO: "World", WHAT: "Hello"}] and the same command
    with [env: ["WHO=World", "WHAT=Hello"]]. *)
Definition docEnvStruct : Task.Context :=
  contextOf [("cmd", VString "echo");
             ("env", envStruct [("WHO", "World"); ("WHAT", "Hello")])].

Definition docEnvList : Task.Context :=
  contextOf [("cmd", VString "echo");
             ("env", envList [("WHO", "World"); ("WHAT", "Hello")])].

(** ** Vocabulary of the further properties *)

(** The field has a content to read: a string or bytes (after its
    default). *)
Definition isReadable (v : Value) : bool :=
  match Default v with
  | VString _ | VBytes _ => true
  | _ => false
  end.

(** The string is empty or all white space: every rune is a separator. *)
Definition allSpace (str : string) : bool :=
  forallb (fun c => IsSpace (fst c)) (ranged (list_ascii_of_string str)).

(** The bytes of the string that do not belong to a white space rune, in
    order. *)
Definition withoutSpace (str : string) : list ascii :=
  concat (map snd (List.filter (fun c => negb (IsSpace (fst c)))
                               (ranged (list_ascii_of_string str)))).

(** A word: a non-empty string of ASCII bytes, none of them white space. *)
Definition asciiWord (w : string) : bool :=
  negb (String.eqb w "")
  && forallb (fun c => (byteN c <? 0x80) && negb (IsSpace (byteN c)))
             (list_ascii_of_string w).

(** The text the struct loop of [mkCommand] takes from a field of [env]: the
    string itself, the decimal text of a number, nothing for any other
    value. *)
Definition envText (v : Value) : option string :=
  match Default v with
  | VString s => Some s
  | VInt z => Some (Sprint (VInt z))
  | VFloat text => Some text
  | _ => None
  end.

(** [env] is a list, or a struct (after its default). *)
Definition isList (v : Value) : bool :=
  match Default v with VList _ => true | _ => false end.

Definition isStruct (v : Value) : bool :=
  match Default v with VStruct _ => true | _ => false end.

(** The ambient streams the child writes to: a stream that is captured
    writes to no handle. *)
Definition passthrough (ctx : Task.Context) (object : Value) (x : Exit)
    : list (Handle * list Byte.byte) :=
  (if presentNotNull (LookupPath object "stdout") then []
   else [(Task.Stdout ctx, wroteStdout x)])
  ++ (if presentNotNull (LookupPath object "stderr") then []
      else [(Task.Stderr ctx, wroteStderr x)]).

(** ** Further concrete documents *)

(** [cmd: 42] *)
Definition docCmdInt : Task.Context := contextOf [("cmd", VInt 42)].

(** [cmd: "  "] *)
Definition docBlank : Task.Context := contextOf [("cmd", VString "  ")].

(** No [cmd] field at all. *)
Definition docNoCmd : Task.Context := contextOf [("dir", VString "/")].

(** [cmd: "ls", env: ["A=1", 2]] *)
Definition docEnvListBad : Task.Context :=
  contextOf [("cmd", VString "ls"); ("env", VList [VString "A=1"; VInt 2])].

(** [cmd: "ls", env: {N: -12, F: 1.5, S: "x"}] *)
Definition docEnvNumbers : Task.Context :=
  contextOf [("cmd", VString "ls");
             ("env", VStruct [("N", VInt (-12)); ("F", VFloat "1.5");
                              ("S", VString "x")])].

(** [cmd: "ls", env: "A=1"]: an [env] that is neither list nor struct. *)
Definition docEnvString : Task.Context :=
  contextOf [("cmd", VString "ls"); ("env", VString "A=1")].

(** [cmd: "ls"] *)
Definition docLsPlain : Task.Context := contextOf [("cmd", VString "ls")].

(** [cmd: ["ls", "-l", "/tmp"]] and [cmd: "ls -l /tmp"]. *)
Definition docWordsList : Task.Context :=
  contextOf [("cmd", VList [VString "ls"; VString "-l"; VString "/tmp"])].

Definition docWordsString : Task.Context :=
  contextOf [("cmd", VString "ls -l /tmp")].

(** [cmd: "cat", stdin: string, mustSucceed: true]: stdin is requested from
    the document but has no content. *)
Definition docStdinType : Task.Context :=
  contextOf [("cmd", VString "cat"); ("stdin", VType StringKind);
             ("mustSucceed", VBool true)].

(** [cmd: "cat"] resolved. *)
Definition cmdCat : Cmd :=
  {| Path := program "cat"; Args := ["cat"]; Dir := ""; Env := [];
     Stdin := None; Stdout := None; Stderr := None |}.

(** A process that complains on stderr and exits with status two. *)
Definition osComplain (p : Process) : Exit :=
  {| wroteStdout := []; wroteStderr := list_byte_of_string "no such file";
     exitErr := Some "exit status 2" |}.

(** A schema that differs from the unconstrained one, and an engine that
    answers with the schema when the working object has no [mustSucceed]. *)
Definition schemaStrict : execCmd :=
  newExecCmd (VStruct [("mustSucceed", VBool true); ("env", VList [VString "Z=9"])]).

Definition unifySchemaFields (object schema : Value) : Value :=
  match object, schema with
  | VStruct fields, VStruct extra => VStruct (fields ++ extra)
  | _, _ => object
  end.

(** The bytes of words joined by single spaces. *)
Fixpoint joined (words : list (list ascii)) : list ascii :=
  match words with
  | [] => []
  | [w] => w
  | w :: rest => w ++ " "%char :: joined rest
  end.

(** The bytes of a word: not empty, all ASCII, none white space. *)
Definition wordBytes (w : list ascii) : Prop :=
  w <> [] /\ Forall (fun c => byteN c < 0x80 /\ IsSpace (byteN c) = false) w.

(** The working directory [mkCommand] takes from the [dir] field: the
    string it resolves to, the empty string for anything else. *)
Definition dirOf (v : Value) : string :=
  match Default v with
  | VString s => s
  | _ => ""
  end.

(** The entry the list loop of [mkCommand] takes from an element of [env]:
    the string the element resolves to after its default, taken as it is. *)
Definition listEntry (e : Value) : option string :=
  match Default (Default e) with
  | VString s => Some s
  | _ => None
  end.

(** The entry the struct loop takes from a field of [env]: label, equals
    sign, text of the value. *)
Definition fieldEntry (f : string * Value) : option string :=
  match envText (snd f) with
  | Some text => Some (fst f +:+ "=" +:+ text)
  | None => None
  end.

(** [cmd: "ls -l  /tmp", dir: 3, env: ["A=1"]]: [docLs] with a [dir] that
    is no string. *)
Definition docLsDirInt : Task.Context :=
  contextOf [("cmd", VString "ls -l  /tmp"); ("dir", VInt 3);
             ("env", VList [VString "A=1"])].

(** [cmd: "ls", env: ["A=1", "plain"]]: the second entry has no equals
    sign. *)
Definition docEnvPlain : Task.Context :=
  contextOf [("cmd", VString "ls"); ("env", VList [VString "A=1"; VString "plain"])].

(** [cmd: ["false"], stderr: string, mustSucceed: false] run with a process
    that complains: the command [Run] starts. *)
Definition cmdFalseWired : Cmd :=
  {| Path := program "false"; Args := ["false"]; Dir := ""; Env := [];
     Stdin := Some (InHandle 0); Stdout := Some (OutHandle 1);
     Stderr := Some (OutBuffer BufStderr) |}.

(** [cmd: "env"] as [Run] starts it for [docEnv]. *)
Definition cmdEnvWired : Cmd :=
  {| Path := program "env"; Args := ["env"]; Dir := ""; Env := [];
     Stdin := Some (InHandle 0); Stdout := Some (OutHandle 1);
     Stderr := Some (OutHandle 2) |}.



(** * Properties *)

(** ** Tokenisation *)

Section FieldsLoop.

Variable f : rune -> bool.

(** A field that is being read is closed by the next boundary. *)
Lemma fieldsLoop_run t : forall acc l,
  Forall (fun c => f (fst c) = false) t -> atBoundary f l ->
  fieldsLoop f (t ++ l) (Some acc)
  = (acc ++ concat (map snd t)) :: fieldsLoop f l None.
Proof.
  induction t as [|[r bs] t IH]; intros acc l Hall Hb.
  - simpl. rewrite app_nil_r.
    destruct Hb as [->|(r & bs & l' & -> & Hr)]; simpl; [reflexivity|].
    rewrite Hr. reflexivity.
  - inversion Hall as [|? ? Hr Ht]; subst. simpl in Hr. simpl.
    rewrite Hr. rewrite IH by assumption. rewrite <- app_assoc. reflexivity.
Qed.

(** Every list of runes starts with a run of non-separators that ends at a
    boundary. *)
Lemma run_split (l : list (rune * list ascii)) :
  exists t rest, l = t ++ rest /\ Forall (fun c => f (fst c) = false) t
                 /\ atBoundary f rest /\ (length rest <= length l)%nat.
Proof.
  induction l as [|[r bs] l IH].
  - exists [], []. repeat split; auto. left; reflexivity.
  - destruct (f r) eqn:Hr.
    + exists [], ((r, bs) :: l). repeat split; auto.
      right. eauto.
    + destruct IH as (t & rest & -> & Hall & Hb & Hlen).
      exists ((r, bs) :: t), rest. repeat split; auto.
      simpl. lia.
Qed.

Lemma fieldsLoop_SplitRuns_fuel n : forall l, (length l <= n)%nat ->
  SplitRuns f l (fieldsLoop f l None).
Proof.
  induction n as [|n IH]; intros l Hlen.
  - destruct l; [constructor | simpl in Hlen; lia].
  - destruct l as [|[r bs] l]; [constructor|].
    simpl in Hlen. simpl. destruct (f r) eqn:Hr.
    + apply SplitRuns_sep; [assumption|]. apply IH. lia.
    + destruct (run_split l) as (t & rest & -> & Hall & Hb & Hle).
      rewrite fieldsLoop_run by assumption.
      change ((r, bs) :: t ++ rest) with (((r, bs) :: t) ++ rest).
      change (bs ++ concat (map snd t)) with (concat (map snd ((r, bs) :: t))).
      apply SplitRuns_run; try assumption.
      * discriminate.
      * constructor; assumption.
      * apply IH. lia.
Qed.

(** The loop of [FieldsFunc] splits around runs of separators. *)
Lemma fieldsLoop_SplitRuns l : SplitRuns f l (fieldsLoop f l None).
Proof. apply (fieldsLoop_SplitRuns_fuel (length l)). lia. Qed.

(** No field is empty. *)
Lemma fieldsLoop_nonempty l : forall cur,
  Forall (fun c => snd c <> []) l ->
  (forall acc, cur = Some acc -> acc <> []) ->
  Forall (fun tok => tok <> []) (fieldsLoop f l cur).
Proof.
  induction l as [|[r bs] l IH]; intros cur Hl Hcur.
  - simpl. destruct cur; constructor; auto.
  - inversion Hl as [|? ? Hbs Hl']; subst. simpl in Hbs. simpl.
    destruct (f r).
    + destruct cur.
      * constructor; [auto|]. apply IH; [assumption|discriminate].
      * apply IH; [assumption|discriminate].
    + apply IH; [assumption|]. intros acc [= <-].
      destruct cur as [a|]; [|assumption].
      intros H. apply app_eq_nil in H. destruct H; auto.
Qed.

End FieldsLoop.

(** Decoding consumes at least one byte. *)
Lemma DecodeRune_width c s : (1 <= snd (DecodeRune (c :: s)))%nat.
Proof.
  unfold DecodeRune.
  repeat match goal with
  | |- context [if ?b then _ else _] => destruct b
  | |- context [match ?l with [] => _ | _ :: _ => _ end] => destruct l
  end; simpl; lia.
Qed.

Lemma rangeFuel_nonempty n : forall s,
  Forall (fun c : rune * list ascii => snd c <> []) (rangeFuel n s).
Proof.
  induction n as [|n IH]; intros s; simpl; [constructor|].
  destruct s as [|c s]; [constructor|].
  pose proof (DecodeRune_width c s) as Hw.
  destruct (DecodeRune (c :: s)) as [r w]. simpl in Hw.
  constructor; [|apply IH].
  simpl. destruct w; [lia|]. simpl. discriminate.
Qed.

Lemma rangeFuel_concat n : forall s, (length s <= n)%nat ->
  concat (map snd (rangeFuel n s)) = s.
Proof.
  induction n as [|n IH]; intros s Hlen.
  - destruct s; [reflexivity | simpl in Hlen; lia].
  - simpl. destruct s as [|c s]; [reflexivity|].
    pose proof (DecodeRune_width c s) as Hw.
    destruct (DecodeRune (c :: s)) as [r w]. simpl in Hw.
    cbn [map concat snd]. rewrite IH.
    + apply firstn_skipn.
    + destruct w; [lia|]. simpl in *.
      pose proof (length_skipn w s). lia.
Qed.

(** Ranging over a string loses no byte: the fuel is never exhausted. *)
Lemma ranged_concat s : concat (map snd (ranged s)) = s.
Proof. apply rangeFuel_concat. lia. Qed.

Lemma rangeFuel_ascii n : forall s, (length s <= n)%nat ->
  Forall (fun c => byteN c < 0x80) s ->
  rangeFuel n s = map (fun c => (byteN c, [c])) s.
Proof.
  induction n as [|n IH]; intros s Hlen Hs.
  - destruct s; [reflexivity | simpl in Hlen; lia].
  - destruct s as [|c s]; [reflexivity|].
    inversion Hs as [|? ? Hc Hs']; subst.
    simpl in Hlen. cbn [rangeFuel DecodeRune].
    apply N.ltb_lt in Hc. rewrite Hc. cbn [firstn skipn map].
    rewrite firstn_O, skipn_O.
    rewrite IH; [reflexivity | lia | assumption].
Qed.

(** In an all-ASCII string every byte is a rune of its own. *)
Lemma ranged_ascii s :
  Forall (fun c => byteN c < 0x80) s ->
  ranged s = map (fun c => (byteN c, [c])) s.
Proof. intros Hs. apply rangeFuel_ascii; [lia | assumption]. Qed.

(** On ASCII, [unicode.IsSpace] is the byte table of [strings.Fields]:
    tab, newline, vertical tab, form feed, carriage return and space. *)
Lemma IsSpace_ascii r : r < 0x80 ->
  IsSpace r = true <-> r = 9 \/ r = 10 \/ r = 11 \/ r = 12 \/ r = 13 \/ r = 32.
Proof.
  intros Hr. unfold IsSpace.
  assert ((r <=? 0xFF) = true) as -> by (apply N.leb_le; lia).
  rewrite !orb_true_iff, !N.eqb_eq. split; intros H; intuition lia.
Qed.

(** [strings.Fields] splits around runs of white space, and no token is
    empty. *)
Lemma Fields_SplitRuns s :
  SplitRuns IsSpace (ranged (list_ascii_of_string s))
    (map list_ascii_of_string (GoStrings.Fields s)).
Proof.
  unfold GoStrings.Fields, FieldsFunc. rewrite map_map.
  erewrite map_ext; [rewrite map_id; apply fieldsLoop_SplitRuns|].
  intros a. apply list_ascii_of_string_of_list_ascii.
Qed.

Lemma Fields_nonempty s : Forall (fun tok => tok <> EmptyString) (GoStrings.Fields s).
Proof.
  unfold GoStrings.Fields, FieldsFunc. apply List.Forall_map.
  eapply List.Forall_impl; [|apply fieldsLoop_nonempty with (cur := None)].
  - intros a Ha Hs. apply Ha. destruct a; [reflexivity | discriminate Hs].
  - apply rangeFuel_nonempty.
  - discriminate.
Qed.

Example Fields_echo :
  GoStrings.Fields "echo  hello world " = ["echo"; "hello"; "world"].
Proof. reflexivity. Qed.

Example Fields_blank : GoStrings.Fields "   " = [].
Proof. reflexivity. Qed.

(** ** The conversions of a document value *)

Lemma checkKind_Null v : checkKind v NullKind = None <-> v = VNull.
Proof.
  split; [|intros ->; reflexivity].
  destruct v; cbn; try discriminate; try reflexivity.
  - destruct (N.land k NullKind =? 0); discriminate.
  - destruct (N.land (N.lor (IncompleteKind v) k) NullKind =? 0); discriminate.
Qed.

Lemma checkKind_Bool v :
  checkKind v BoolKind = None -> exists b, v = VBool b.
Proof.
  destruct v; cbn; try discriminate; eauto.
  - destruct (N.land k BoolKind =? 0); discriminate.
  - destruct (N.land (N.lor (IncompleteKind v) k) BoolKind =? 0); discriminate.
Qed.

Lemma checkKind_String v :
  checkKind v StringKind = None -> exists s, v = VString s.
Proof.
  destruct v; cbn; try discriminate; eauto.
  - destruct (N.land k StringKind =? 0); discriminate.
  - destruct (N.land (N.lor (IncompleteKind v) k) StringKind =? 0); discriminate.
Qed.

(** [Null] gives no error exactly for a null field. *)
Lemma Null_isNull v : notNil (Cue.Null v) = negb (isNull v).
Proof.
  unfold Cue.Null, isNull.
  destruct (checkKind (Default v) NullKind) eqn:Hk.
  - destruct (Default v); try reflexivity. discriminate Hk.
  - apply checkKind_Null in Hk. rewrite Hk. reflexivity.
Qed.

(** [Err] gives an error exactly for a field that is not present. *)
Lemma Err_isPresent v : notNil (Cue.Err v) = negb (isPresent v).
Proof. destruct v; reflexivity. Qed.

(** [Bool] gives the boolean of a boolean field and an error for any other
    field, the absent one included. *)
Lemma Bool_isBool v :
  if isBool v then exists b, Default v = VBool b /\ Cue.Bool v = (b, None)
  else exists e, Cue.Bool v = (false, Some e).
Proof.
  unfold isBool, Cue.Bool.
  destruct (Default v) eqn:Hd; eauto;
    match goal with
    | |- exists e, (false, checkKind ?d BoolKind) = _ =>
      destruct (checkKind d BoolKind) eqn:Hk;
      [eauto | apply checkKind_Bool in Hk; destruct Hk; discriminate]
    end.
Qed.

Lemma Bool_absent : Cue.Bool VAbsent = (false, Some NotExists).
Proof. reflexivity. Qed.

(** [String] gives the string of a string field and an error for any other
    field. *)
Lemma String_isString v :
  if isString v
  then exists s, Default v = VString s /\ Cue.String v = (s, None)
  else exists e, Cue.String v = (EmptyString, Some e).
Proof.
  unfold isString, Cue.String.
  destruct (Default v) eqn:Hd; eauto;
    match goal with
    | |- exists e, (EmptyString, checkKind ?d StringKind) = _ =>
      destruct (checkKind d StringKind) eqn:Hk;
      [eauto | apply checkKind_String in Hk; destruct Hk; discriminate]
    end.
Qed.

Lemma String_resolved v s : Default v = VString s -> Cue.String v = (s, None).
Proof. unfold Cue.String. intros ->. reflexivity. Qed.

(** ** The stream directive *)

(** The closure [stream] answers [true] exactly for a field that is present
    and not null. *)
Lemma stream_presentNotNull object name :
  stream object name
  = if presentNotNull (LookupPath object name)
    then (LookupPath object name, true) else (VAbsent, false).
Proof.
  unfold stream, presentNotNull.
  rewrite Err_isPresent, Null_isNull, negb_involutive.
  destruct (isPresent _), (isNull _); reflexivity.
Qed.

(** ** Strings *)

Lemma append_assoc (a b c : string) : (a +:+ b) +:+ c = a +:+ (b +:+ c).
Proof.
  induction a as [|x a IH]; [reflexivity|].
  change (String.String x ((a +:+ b) +:+ c) = String.String x (a +:+ (b +:+ c))).
  rewrite IH. reflexivity.
Qed.

(** The display form the list loop builds is the elements joined by one
    space. *)
Lemma fold_doc_concat ss : forall bin,
  fold_left (fun d s => d +:+ " " +:+ s) ss bin = String.concat " " (bin :: ss).
Proof.
  induction ss as [|s ss IH]; intros bin; [reflexivity|].
  cbn [fold_left]. rewrite IH.
  destruct ss as [|s2 ss]; [reflexivity|].
  cbn [String.concat]. rewrite !append_assoc. reflexivity.
Qed.

(** ** The command resolver *)

Lemma Lookup_present ctx name v :
  LookupPath (Task.Obj ctx) name = v -> isPresent v = true ->
  Task.Lookup ctx name = (v, ctx).
Proof.
  intros Hv Hp. unfold Task.Lookup. rewrite Hv.
  destruct v; try discriminate Hp; reflexivity.
Qed.

(** [mkCommand] on a string [cmd]. *)
Lemma mkCommand_string ctx str :
  Task.Err ctx = [] ->
  LookupPath (Task.Obj ctx) "cmd" = VString str ->
  mkCommand ctx =
    match GoStrings.Fields str with
    | [] => Panics "runtime error: index out of range [0] with length 0"
    | bin :: args =>
      cmdEnv ← resolveEnv (LookupPath (Task.Obj ctx) "env") [];
      Returns (resolved bin args ctx cmdEnv, str)
    end.
Proof.
  intros Herr Hcmd. unfold mkCommand.
  rewrite (Lookup_present ctx "cmd" (VString str) Hcmd eq_refl).
  rewrite Herr. cbn [isNil negb].
  change (Kind_of (VString str) =? StringKind) with true. cbn iota.
  unfold Task.String. rewrite Hcmd. cbn [Cue.String Default].
  pose proof (Fields_nonempty str) as Hne.
  destruct (GoStrings.Fields str) as [|bin args]; [reflexivity|].
  inversion Hne as [|? ? Hbin _]; subst.
  cbn [mbind Outcome_bind app].
  apply String.eqb_neq in Hbin. rewrite Hbin.
  reflexivity.
Qed.

(** The loop over the arguments of a list [cmd] whose elements all resolve
    to strings. *)
Lemma cmdListLoop_strings elems ss :
  Forall2 (fun e s => Default e = VString s) elems ss ->
  forall args doc,
    cmdListLoop elems args doc
    = Returns (args ++ ss, fold_left (fun d s => d +:+ " " +:+ s) ss doc).
Proof.
  induction 1 as [|e s elems ss He _ IH]; intros args doc.
  - cbn. rewrite app_nil_r. reflexivity.
  - cbn [cmdListLoop]. rewrite (String_resolved e s He).
    rewrite IH. rewrite <- app_assoc. reflexivity.
Qed.

(** The loop fails at the first element that does not resolve to a
    string. *)
Lemma cmdListLoop_not_string elems :
  List.Exists (fun e => isString e = false) elems ->
  forall args doc, exists err, cmdListLoop elems args doc = Fails (ErrValue err).
Proof.
  induction elems as [|e elems IH]; intros Hex args doc.
  - inversion Hex.
  - cbn [cmdListLoop]. pose proof (String_isString e) as Hs.
    destruct (isString e) eqn:He.
    + destruct Hs as (s & _ & ->).
      apply IH. inversion Hex as [? ? Hhd|? ? Htl]; subst; [congruence|assumption].
    + destruct Hs as (err & ->). eauto.
Qed.

(** [mkCommand] on a list [cmd]. *)
Lemma mkCommand_list ctx elems :
  Task.Err ctx = [] ->
  LookupPath (Task.Obj ctx) "cmd" = VList elems ->
  mkCommand ctx =
    match elems with
    | [] => Fails ErrEmptyCommandList
    | first :: rest =>
      match Cue.String first with
      | (_, Some err) => Fails (ErrValue err)
      | (bin, None) =>
        '(args, doc) ← cmdListLoop rest [] bin;
        if String.eqb bin "" then Fails ErrEmptyCommand
        else
          cmdEnv ← resolveEnv (LookupPath (Task.Obj ctx) "env") [];
          Returns (resolved bin args ctx cmdEnv, doc)
      end
    end.
Proof.
  intros Herr Hcmd. unfold mkCommand.
  rewrite (Lookup_present ctx "cmd" (VList elems) Hcmd eq_refl).
  rewrite Herr. cbn [isNil negb].
  change (Kind_of (VList elems) =? StringKind) with false.
  change (Kind_of (VList elems) =? ListKind) with true. cbn iota.
  cbn [Cue.List Default].
  destruct elems as [|first rest]; [reflexivity|].
  destruct (Cue.String first) as [bin [err|]]; [reflexivity|].
  change ("" +:+ bin) with bin.
  destruct (cmdListLoop rest [] bin) as [[args doc]| |]; reflexivity.
Qed.

(** ** The environment *)

Lemma envListLoop_strings kvs : forall env,
  envListLoop (map (fun kv => VString (fst kv +:+ "=" +:+ snd kv)) kvs) env
  = Returns (env ++ map (fun kv => fst kv +:+ "=" +:+ snd kv) kvs).
Proof.
  induction kvs as [|kv kvs IH]; intros env.
  - cbn. rewrite app_nil_r. reflexivity.
  - cbn [map envListLoop Default Cue.String]. rewrite IH.
    rewrite <- app_assoc. reflexivity.
Qed.

Lemma envFieldsLoop_strings kvs : forall env,
  envFieldsLoop (map (fun kv => (fst kv, VString (snd kv))) kvs) env
  = Returns (env ++ map (fun kv => fst kv +:+ "=" +:+ snd kv) kvs).
Proof.
  induction kvs as [|kv kvs IH]; intros env.
  - cbn. rewrite app_nil_r. reflexivity.
  - cbn [map envFieldsLoop Default fst snd].
    change (Kind_of (VString (snd kv)) =? StringKind) with true. cbn iota.
    cbn [mbind Outcome_bind Cue.String Default fst].
    rewrite IH. rewrite <- app_assoc. reflexivity.
Qed.

Lemma resolveEnv_struct kvs env :
  resolveEnv (envStruct kvs) env
  = Returns (env ++ map (fun kv => fst kv +:+ "=" +:+ snd kv) kvs).
Proof.
  unfold resolveEnv, envStruct. cbn [Cue.List Cue.Fields Default envListLoop].
  cbn [mbind Outcome_bind]. apply envFieldsLoop_strings.
Qed.

Lemma resolveEnv_list kvs env :
  resolveEnv (envList kvs) env
  = Returns (env ++ map (fun kv => fst kv +:+ "=" +:+ snd kv) kvs).
Proof.
  unfold resolveEnv, envList. cbn [Cue.List Cue.Fields Default].
  rewrite envListLoop_strings. reflexivity.
Qed.

Lemma Lookup_fst ctx name :
  fst (Task.Lookup ctx name) = LookupPath (Task.Obj ctx) name.
Proof.
  unfold Task.Lookup.
  destruct (LookupPath (Task.Obj ctx) name); reflexivity.
Qed.

Lemma Lookup_Obj ctx name :
  Task.Obj (snd (Task.Lookup ctx name)) = Task.Obj ctx.
Proof.
  unfold Task.Lookup.
  destruct (LookupPath (Task.Obj ctx) name); reflexivity.
Qed.

Lemma Lookup_Err ctx1 ctx2 name :
  Task.Err ctx1 = Task.Err ctx2 ->
  LookupPath (Task.Obj ctx1) name = LookupPath (Task.Obj ctx2) name ->
  Task.Err (snd (Task.Lookup ctx1 name)) = Task.Err (snd (Task.Lookup ctx2 name)).
Proof.
  intros Herr Hv. unfold Task.Lookup. rewrite Hv.
  destruct (LookupPath (Task.Obj ctx2) name); cbn; rewrite ?Herr; reflexivity.
Qed.

Lemma String_fst ctx name :
  fst (Task.String ctx name) = fst (Cue.String (LookupPath (Task.Obj ctx) name)).
Proof.
  unfold Task.String.
  destruct (Cue.String (LookupPath (Task.Obj ctx) name)) as [s [e|]]; reflexivity.
Qed.

(** [mkCommand] reads the context through its error and three fields
    only. *)
Lemma mkCommand_ext ctx1 ctx2 :
  Task.Err ctx1 = Task.Err ctx2 ->
  LookupPath (Task.Obj ctx1) "cmd" = LookupPath (Task.Obj ctx2) "cmd" ->
  LookupPath (Task.Obj ctx1) "dir" = LookupPath (Task.Obj ctx2) "dir" ->
  resolveEnv (LookupPath (Task.Obj ctx1) "env") []
  = resolveEnv (LookupPath (Task.Obj ctx2) "env") [] ->
  mkCommand ctx1 = mkCommand ctx2.
Proof.
  intros Herr Hcmd Hdir Henv. unfold mkCommand.
  pose proof (Lookup_fst ctx1 "cmd") as Hv1.
  pose proof (Lookup_fst ctx2 "cmd") as Hv2.
  pose proof (Lookup_Obj ctx1 "cmd") as Ho1.
  pose proof (Lookup_Obj ctx2 "cmd") as Ho2.
  pose proof (Lookup_Err ctx1 ctx2 "cmd" Herr Hcmd) as He.
  destruct (Task.Lookup ctx1 "cmd") as [v1 c1].
  destruct (Task.Lookup ctx2 "cmd") as [v2 c2].
  cbn [fst snd] in *. subst v1 v2. rewrite He, Hcmd.
  pose proof (String_fst c1 "cmd") as Hs1.
  pose proof (String_fst c2 "cmd") as Hs2.
  destruct (Task.String c1 "cmd") as [str1 c1'].
  destruct (Task.String c2 "cmd") as [str2 c2'].
  cbn [fst] in Hs1, Hs2. rewrite Ho1, Hcmd in Hs1. rewrite Ho2 in Hs2.
  subst str1 str2.
  cbn [CommandContext setDir Env]. rewrite Hdir, Henv. reflexivity.
Qed.

(** ** The runner *)

Section RunnerFacts.

Variable Unify : Value -> Value -> Value.
Variable os : Process -> Exit.
Variable c : execCmd.
Variable ctx : Task.Context.
Variable w : World.

Let object := Unify (Task.Obj ctx) (schema c).

Lemma Run_panics msg :
  mkCommand ctx = Panics msg -> Run Unify os c ctx w = (w, Panicked msg).
Proof. intros H. unfold Run. rewrite H. reflexivity. Qed.

Lemma Run_unresolved err :
  mkCommand ctx = Fails err ->
  Run Unify os c ctx w = (w, Returned ResZeroValue (Some err)).
Proof. intros H. unfold Run. rewrite H. reflexivity. Qed.

Lemma Run_invalid_input cmd doc :
  mkCommand ctx = Returns (cmd, doc) ->
  stdinReadable object = false ->
  exists e, Run Unify os c ctx w = (w, Returned ResNil (Some (ErrInvalidInput e))).
Proof.
  intros Hmk Hin. unfold Run. rewrite Hmk. fold object.
  rewrite (stream_presentNotNull object "stdin").
  unfold stdinReadable in Hin.
  destruct (presentNotNull (LookupPath object "stdin")); [|discriminate Hin].
  cbn [negb].
  destruct (Reader (LookupPath object "stdin")) as [r [e|]];
    [|discriminate Hin].
  exists e. reflexivity.
Qed.

Lemma Run_invalid_bool cmd doc b e :
  mkCommand ctx = Returns (cmd, doc) ->
  stdinReadable object = true ->
  Cue.Bool (LookupPath object "mustSucceed") = (b, Some e) ->
  Run Unify os c ctx w = (w, Returned ResNil (Some (ErrInvalidBool e))).
Proof.
  intros Hmk Hin Hb. unfold Run. rewrite Hmk. fold object.
  rewrite !stream_presentNotNull. rewrite Hb.
  unfold stdinReadable in Hin.
  destruct (presentNotNull (LookupPath object "stdin")); cbn [negb].
  - destruct (Reader (LookupPath object "stdin")) as [r [e'|]];
      [discriminate Hin|].
    destruct (presentNotNull (LookupPath object "stdout")),
             (presentNotNull (LookupPath object "stderr")); reflexivity.
  - destruct (presentNotNull (LookupPath object "stdout")),
             (presentNotNull (LookupPath object "stderr")); reflexivity.
Qed.

Lemma finalStderr_length x :
  match exitErr x with
  | Some text =>
    if (length (wroteStderr x) =? 0)%nat
    then wroteStderr x ++ list_byte_of_string text
    else wroteStderr x
  | None => wroteStderr x
  end = finalStderr x.
Proof.
  unfold finalStderr. destruct (exitErr x); [|destruct (wroteStderr x); reflexivity].
  destruct (wroteStderr x); reflexivity.
Qed.

(** When the command resolves, the stdin wiring does not fail and
    [mustSucceed] is a boolean, [Run] starts the wired command once and
    builds its result from what the process did. *)
Lemma Run_process cmd doc mustSucceed :
  mkCommand ctx = Returns (cmd, doc) ->
  stdinReadable object = true ->
  Cue.Bool (LookupPath object "mustSucceed") = (mustSucceed, None) ->
  Run Unify os c ctx w =
    (after w (wired ctx object cmd) (os (processOf w (wired ctx object cmd))),
     finish object doc mustSucceed (os (processOf w (wired ctx object cmd)))).
Proof.
  intros Hmk Hin Hb. unfold Run. rewrite Hmk. fold object.
  rewrite !stream_presentNotNull. rewrite Hb.
  unfold stdinReadable in Hin. unfold wired, finish, updateOf.
  assert (Hrd : presentNotNull (LookupPath object "stdin") = true ->
                exists r, Reader (LookupPath object "stdin") = (r, None)).
  { intros Hp. rewrite Hp in Hin. cbn [negb orb] in Hin.
    destruct (Reader (LookupPath object "stdin")) as [r [e'|]];
      [discriminate Hin | eauto]. }
  destruct (presentNotNull (LookupPath object "stdin")); cbn [negb];
    [destruct (Hrd eq_refl) as [r ->]; cbn [fst]|];
    destruct (presentNotNull (LookupPath object "stdout")),
             (presentNotNull (LookupPath object "stderr"));
    match goal with
    | |- _ = (after w ?c' _, _) =>
      match goal with
      | |- context [OsExec.Run os ?c0 w] => change c0 with c'
      end
    end;
    unfold OsExec.Run, after;
    match goal with
    | |- context [os ?p] => generalize (os p); intros x
    end;
    unfold toBuffer; cbn [Stdout Stderr isBuffer app];
    rewrite ?app_nil_r, ?finalStderr_length;
    (destruct (exitErr x); [destruct mustSucceed|]; reflexivity).
Qed.

(** Every call of [Run] goes one of the five ways. *)
Lemma Run_cases : RunCase Unify os c ctx w (Run Unify os c ctx w).
Proof.
  destruct (mkCommand ctx) as [[cmd doc]|err|msg] eqn:Hmk.
  - destruct (stdinReadable object) eqn:Hin.
    + destruct (Cue.Bool (LookupPath object "mustSucceed")) as [b [e|]] eqn:Hb.
      * rewrite (Run_invalid_bool cmd doc b e Hmk Hin Hb).
        eapply CaseInvalidBool; eassumption.
      * rewrite (Run_process cmd doc b Hmk Hin Hb).
        apply CaseProcess; assumption.
    + destruct (Run_invalid_input cmd doc Hmk Hin) as [e ->].
      eapply CaseInvalidInput; eassumption.
  - rewrite (Run_unresolved err Hmk). apply CaseUnresolved. assumption.
  - rewrite (Run_panics msg Hmk). apply CasePanics. assumption.
Qed.

End RunnerFacts.

(** ** The update document *)

Lemma updateOf_holds object x : holds object x (updateOf object x).
Proof.
  unfold holds, updateOf, typed, toStreamOutput.
  destruct (presentNotNull (LookupPath object "stdout")),
           (presentNotNull (LookupPath object "stderr"));
    repeat split; intros; simplify_map_eq; reflexivity.
Qed.

(** A run that starts a process starts the wired command, after the
    command resolved, the stdin wiring passed and [mustSucceed] was read. *)
Lemma Run_started_inv Unify os c ctx w cmd p :
  started (fst (Run Unify os c ctx w)) = started w ++ [(cmd, p)] ->
  exists cmd0 doc mustSucceed,
    mkCommand ctx = Returns (cmd0, doc)
    /\ stdinReadable (Unify (Task.Obj ctx) (schema c)) = true
    /\ Cue.Bool (LookupPath (Unify (Task.Obj ctx) (schema c)) "mustSucceed")
       = (mustSucceed, None)
    /\ cmd = wired ctx (Unify (Task.Obj ctx) (schema c)) cmd0
    /\ p = processOf w cmd.
Proof.
  intros Hst.
  assert (Hno : started w <> started w ++ [(cmd, p)]).
  { intros H. apply (f_equal (@length _)) in H.
    rewrite length_app in H. simpl in H. lia. }
  destruct (Run_cases Unify os c ctx w) as
    [msg Hmk|err Hmk|cmd0 doc e Hmk Hin|cmd0 doc b e Hmk Hin Hb
    |cmd0 doc ms Hmk Hin Hb]; cbn [fst] in Hst; try (exfalso; auto; fail).
  unfold after in Hst. cbn [started] in Hst.
  apply app_inv_head in Hst. injection Hst as <- <-.
  exists cmd0, doc, ms. auto.
Qed.

(** The resolver returns none of the errors of [Run] itself. *)
Lemma cmdListLoop_errors l : forall args doc err,
  cmdListLoop l args doc = Fails err -> exists e, err = ErrValue e.
Proof.
  induction l as [|v l IH]; intros args doc err H; [discriminate H|].
  cbn [cmdListLoop] in H. destruct (Cue.String v) as [s [e|]].
  - injection H as <-. eauto.
  - eapply IH. eassumption.
Qed.

Lemma envListLoop_errors l : forall env err,
  envListLoop l env = Fails err -> exists e v, err = ErrInvalidEnvWrapped e v.
Proof.
  induction l as [|v l IH]; intros env err H; [discriminate H|].
  cbn [envListLoop] in H. destruct (Cue.String (Default v)) as [s [e|]].
  - injection H as <-. eauto.
  - eapply IH. eassumption.
Qed.

Lemma envFieldsLoop_errors l : forall env err,
  envFieldsLoop l env = Fails err -> exists v, err = ErrInvalidEnvValue v.
Proof.
  induction l as [|[label v] l IH]; intros env err H; [discriminate H|].
  cbn [envFieldsLoop] in H.
  destruct (Kind_of (Default v) =? StringKind);
    [cbn [mbind Outcome_bind] in H; eapply IH; eassumption|].
  destruct ((Kind_of (Default v) =? IntKind) || (Kind_of (Default v) =? FloatKind)
            || (Kind_of (Default v) =? NumberKind));
    cbn [mbind Outcome_bind] in H.
  - eapply IH; eassumption.
  - injection H as <-. eauto.
Qed.

Lemma resolveEnv_errors env cmdEnv err :
  resolveEnv env cmdEnv = Fails err -> resolverError err.
Proof.
  unfold resolveEnv. intros H.
  destruct (envListLoop (Cue.List env) cmdEnv) as [env1|e|msg] eqn:H1;
    cbn [mbind Outcome_bind] in H.
  - apply envFieldsLoop_errors in H. destruct H as [v ->]. exact I.
  - injection H as <-. apply envListLoop_errors in H1.
    destruct H1 as (e' & v & ->). exact I.
  - discriminate H.
Qed.

Lemma mkCommand_errors ctx err :
  mkCommand ctx = Fails err -> resolverError err.
Proof.
  unfold mkCommand. destruct (Task.Lookup ctx "cmd") as [v ctx1].
  destruct (negb (isNil (Task.Err ctx1))); [intros [= <-]; exact I|].
  destruct (Task.String ctx1 "cmd") as [str ctx2].
  set (tail := fun bad : string * list string * string => _).
  intros H.
  assert (Htail : forall bad e, tail bad = Fails e -> resolverError e).
  { intros [[bin args] doc] e. unfold tail.
    destruct (String.eqb bin ""); [intros [= <-]; exact I|].
    cbn [CommandContext setDir Env].
    destruct (resolveEnv _ []) as [env1|e1|msg] eqn:He;
      cbn [mbind Outcome_bind]; try discriminate.
    intros [= <-]. eapply resolveEnv_errors. eassumption. }
  destruct (Kind_of v =? StringKind).
  - destruct (GoStrings.Fields str); cbn [mbind Outcome_bind] in H;
      [discriminate H | eapply Htail; eassumption].
  - destruct (Kind_of v =? ListKind).
    + destruct (Cue.List v) as [|first rest]; cbn [mbind Outcome_bind] in H;
        [injection H as <-; exact I|].
      destruct (Cue.String first) as [bin [e|]]; cbn [mbind Outcome_bind] in H;
        [injection H as <-; exact I|].
      destruct (cmdListLoop rest [] ("" +:+ bin)) as [[args doc]|e|msg] eqn:Hl;
        cbn [mbind Outcome_bind] in H.
      * eapply Htail; eassumption.
      * injection H as <-. apply cmdListLoop_errors in Hl.
        destruct Hl as [e' ->]. exact I.
      * discriminate H.
    + cbn [mbind Outcome_bind] in H. eapply Htail; eassumption.
Qed.

(** ** The environment of the child *)






(** * The claims *)

(** C1, as the spec words it, fails: with [stdout: null] (present and null)
    the stream is not captured.  The child's output goes to the ambient
    handle of the context and the update document has no [stdout] key. *)
Lemma C1_counterexample :
  presentAndNull
    (LookupPath (unifyTop (Task.Obj docStdoutNull) (schema topSchema)) "stdout")
  = true
  /\ Run unifyTop osHello topSchema docStdoutNull world0
     = ({| environ := environ world0;
           cwd := cwd world0;
           written := [(Task.Stdout docStdoutNull, list_byte_of_string "hello");
                       (Task.Stderr docStdoutNull, [])];
           started :=
             [({| Path := program "echo"; Args := ["echo"; "hello"]; Dir := "";
                  Env := [];
                  Stdin := Some (InHandle (Task.Stdin docStdoutNull));
                  Stdout := Some (OutHandle (Task.Stdout docStdoutNull));
                  Stderr := Some (OutHandle (Task.Stderr docStdoutNull)) |},
               {| procPath := program "echo"; procArgs := ["echo"; "hello"];
                  procDir := ""; procEnv := environ world0;
                  procStdin := Some (InHandle (Task.Stdin docStdoutNull)) |})] |},
        Returned (ResUpdate {[ "success" := AnyBool true ]}) None).
Proof. split; reflexivity. Qed.

(** C1 (amended): for each of stdin, stdout and stderr, the command [Run]
    starts has the stream captured (stdout and stderr redirected into their
    buffer, stdin fed from the content of the document field) if and only
    if the field of the merged document is present and not null; a field
    that is absent, erroneous or null leaves the stream wired to the
    ambient handle of the caller's context. *)
Theorem C1_stream_directives Unify os c ctx w cmd p :
  started (fst (Run Unify os c ctx w)) = started w ++ [(cmd, p)] ->
  let field := LookupPath (Unify (Task.Obj ctx) (schema c)) in
  Stdin cmd
  = (if presentNotNull (field "stdin")
     then Some (InReader (fst (Cue.Reader (field "stdin"))))
     else Some (InHandle (Task.Stdin ctx)))
  /\ Stdout cmd
     = (if presentNotNull (field "stdout")
        then Some (OutBuffer BufStdout)
        else Some (OutHandle (Task.Stdout ctx)))
  /\ Stderr cmd
     = (if presentNotNull (field "stderr")
        then Some (OutBuffer BufStderr)
        else Some (OutHandle (Task.Stderr ctx)))
  /\ (forall name, field name = VAbsent -> presentNotNull (field name) = false)
  /\ (forall name, presentNotNull (field name) = true <->
                   isPresent (field name) = true /\ isNull (field name) = false).
Proof.
  intros Hst field.
  destruct (Run_started_inv Unify os c ctx w cmd p Hst)
    as (cmd0 & doc & ms & _ & _ & _ & -> & _).
  repeat split; try reflexivity.
  - intros name ->. reflexivity.
  - unfold presentNotNull in H. apply andb_true_iff in H. apply H.
  - unfold presentNotNull in H. apply andb_true_iff in H.
    destruct H as [_ H]. apply negb_true_iff in H. exact H.
  - intros [H1 H2]. unfold presentNotNull. rewrite H1, H2. reflexivity.
Qed.

(** The theorem at [docCapture]: stdin is read from the document, stdout
    goes to its buffer, stderr to the ambient handle. *)
Lemma C1_witness :
  Stdin cmdCapture = Some (InReader (list_byte_of_string "input"))
  /\ Stdout cmdCapture = Some (OutBuffer BufStdout)
  /\ Stderr cmdCapture = Some (OutHandle (Task.Stderr docCapture)).
Proof.
  pose proof (C1_stream_directives unifyTop osHello topSchema docCapture world0
                cmdCapture (processOf world0 cmdCapture) eq_refl) as H.
  cbv zeta in H. destruct H as (H1 & H2 & H3 & _).
  repeat split; assumption.
Defined.

(** C2, as the spec words it, fails twice.  A carriage return is white
    space for [strings.Fields] although it is no space, tab or newline:
    [cmd: "a\rb"] resolves to the binary [a] with the argument [b], where
    splitting on runs of space, tab and newline gives the single token
    ["a\rb"].  And for a string without tokens the resolver does not return
    the empty-command error: indexing the empty token list panics. *)
Lemma C2_counterexample :
  (mkCommand docCarriageReturn
   = Returns ({| Path := program "a"; Args := ["a"; "b"]; Dir := ""; Env := [];
                 Stdin := None; Stdout := None; Stderr := None |},
              "a" +:+ CR +:+ "b")
   /\ FieldsFunc ("a" +:+ CR +:+ "b") IsSpaceTabNewline = ["a" +:+ CR +:+ "b"])
  /\ (GoStrings.Fields "" = []
      /\ mkCommand docEmptyString = Panics "runtime error: index out of range [0] with length 0"
      /\ mkCommand docEmptyString <> Fails ErrEmptyCommand).
Proof. repeat split; try reflexivity. discriminate. Qed.

(** C2 (amended): for every [cmd] field of string kind that holds at least
    one token, resolution splits the string around the runs of white space
    of [unicode.IsSpace] (on ASCII: tab, newline, vertical tab, form feed,
    carriage return and space), takes the first token as the binary (the
    program is the one [os/exec] makes of that token, the file found along
    PATH for a bare name, and the argument vector starts with the token as
    written) and the remaining tokens in order as the args, and sets the
    display form to the original string; it returns that command whenever
    the environment resolves. *)
Theorem C2_string_cmd ctx str bin args :
  Task.Err ctx = [] ->
  LookupPath (Task.Obj ctx) "cmd" = VString str ->
  GoStrings.Fields str = bin :: args ->
  SplitRuns IsSpace (ranged (list_ascii_of_string str))
    (map list_ascii_of_string (bin :: args))
  /\ (forall cmd doc, mkCommand ctx = Returns (cmd, doc) ->
        Path cmd = program bin /\ Args cmd = bin :: args /\ doc = str)
  /\ (forall cmdEnv,
        resolveEnv (LookupPath (Task.Obj ctx) "env") [] = Returns cmdEnv ->
        mkCommand ctx = Returns (resolved bin args ctx cmdEnv, str)).
Proof.
  intros Herr Hcmd Htok.
  pose proof (mkCommand_string ctx str Herr Hcmd) as Hmk. rewrite Htok in Hmk.
  split; [rewrite <- Htok; apply Fields_SplitRuns|].
  split.
  - intros cmd doc H. rewrite Hmk in H.
    destruct (resolveEnv _ []) as [cmdEnv| |]; cbn [mbind Outcome_bind] in H;
      try discriminate H.
    injection H as <- <-. auto.
  - intros cmdEnv He. rewrite Hmk, He. reflexivity.
Qed.

(** The theorem at [cmd: "ls -l  /tmp"]. *)
Lemma C2_witness :
  mkCommand docLs
  = Returns ({| Path := program "ls"; Args := ["ls"; "-l"; "/tmp"]; Dir := "/";
                Env := ["A=1"]; Stdin := None; Stdout := None;
                Stderr := None |}, "ls -l  /tmp").
Proof.
  apply (C2_string_cmd docLs "ls -l  /tmp" "ls" ["-l"; "/tmp"]
           eq_refl eq_refl eq_refl).
  reflexivity.
Defined.

(** C3, as the spec words it, fails: with [mustSucceed] absent the runner
    does not go on with [false].  Reading the missing field as a boolean is
    an error, so [Run] returns the invalid-bool error, starts no process and
    leaves the outside state as it was. *)
Lemma C3_counterexample :
  LookupPath (unifyTop (Task.Obj docEcho) (schema topSchema)) "mustSucceed"
  = VAbsent
  /\ Run unifyTop osHello topSchema docEcho world0
     = (world0, Returned ResNil (Some (ErrInvalidBool NotExists)))
  /\ Run unifyTop osHello topSchema docEcho world0
     <> (after world0 (wired docEcho (Task.Obj docEcho) cmdEcho)
           (osHello (processOf world0 (wired docEcho (Task.Obj docEcho) cmdEcho))),
         Returned (ResUpdate {[ "success" := AnyBool true ]}) None).
Proof. repeat split; try reflexivity. discriminate. Qed.

(** C3 (amended): once the command resolved and the stdin wiring (if any)
    passed, reading [mustSucceed] yields the invalid-bool error, with no
    process execution (the outside state is unchanged) and no update
    document, whenever the field does not resolve to a boolean: when it is
    present but not a boolean, and also when it is absent. *)
Theorem C3_mustSucceed_not_bool Unify os c ctx w cmd doc :
  mkCommand ctx = Returns (cmd, doc) ->
  stdinReadable (Unify (Task.Obj ctx) (schema c)) = true ->
  isBool (LookupPath (Unify (Task.Obj ctx) (schema c)) "mustSucceed") = false ->
  (exists e,
     Run Unify os c ctx w = (w, Returned ResNil (Some (ErrInvalidBool e))))
  /\ (LookupPath (Unify (Task.Obj ctx) (schema c)) "mustSucceed" = VAbsent ->
      Run Unify os c ctx w = (w, Returned ResNil (Some (ErrInvalidBool NotExists)))).
Proof.
  intros Hmk Hin Hb.
  pose proof (Bool_isBool (LookupPath (Unify (Task.Obj ctx) (schema c)) "mustSucceed"))
    as H. rewrite Hb in H. destruct H as [e He].
  split.
  - exists e. eapply Run_invalid_bool; eassumption.
  - intros Habs. eapply Run_invalid_bool; [eassumption..|].
    rewrite Habs. apply Bool_absent.
Qed.

(** The theorem at [mustSucceed: "yes"], a field that is present and no
    boolean. *)
Lemma C3_witness :
  exists e,
    Run unifyTop osHello topSchema docMustSucceedString world0
    = (world0, Returned ResNil (Some (ErrInvalidBool e))).
Proof.
  apply (C3_mustSucceed_not_bool unifyTop osHello topSchema
           docMustSucceedString world0 cmdEcho "echo hello");
    reflexivity.
Defined.




(** C5: let [Run] get as far as the process (the command resolved, the
    stdin wiring passed, [mustSucceed] is a boolean).  It starts exactly
    one process; if that process fails and [mustSucceed] is true, [Run]
    returns no update document and the command-failed error, made of the
    display form of the command and the process error; if the process
    succeeds, or fails with [mustSucceed] false, [Run] returns the update
    document (the success flag and the captured stdout and stderr, no other
    key) and no error. *)
Theorem C5_mustSucceed_policy Unify os c ctx w cmd doc mustSucceed :
  mkCommand ctx = Returns (cmd, doc) ->
  stdinReadable (Unify (Task.Obj ctx) (schema c)) = true ->
  Cue.Bool (LookupPath (Unify (Task.Obj ctx) (schema c)) "mustSucceed")
  = (mustSucceed, None) ->
  exists cmd' p,
    started (fst (Run Unify os c ctx w)) = started w ++ [(cmd', p)]
    /\ match exitErr (os p) with
       | Some text =>
         if mustSucceed
         then snd (Run Unify os c ctx w)
              = Returned ResNil (Some (ErrCommandFailed doc text))
         else exists update,
             snd (Run Unify os c ctx w) = Returned (ResUpdate update) None
             /\ update !! "success" = Some (AnyBool false)
             /\ holds (Unify (Task.Obj ctx) (schema c)) (os p) update
       | None =>
         exists update,
           snd (Run Unify os c ctx w) = Returned (ResUpdate update) None
           /\ update !! "success" = Some (AnyBool true)
           /\ holds (Unify (Task.Obj ctx) (schema c)) (os p) update
       end.
Proof.
  intros Hmk Hin Hb.
  rewrite (Run_process Unify os c ctx w cmd doc mustSucceed Hmk Hin Hb).
  set (object := Unify (Task.Obj ctx) (schema c)).
  exists (wired ctx object cmd), (processOf w (wired ctx object cmd)).
  split; [reflexivity|]. cbn [snd]. unfold finish.
  pose proof (updateOf_holds object (os (processOf w (wired ctx object cmd))))
    as Hh.
  destruct (exitErr (os (processOf w (wired ctx object cmd)))) as [text|] eqn:Hx.
  - destruct mustSucceed; [reflexivity|].
    eexists. split; [reflexivity|]. split; [|exact Hh].
    destruct Hh as [Hs _]. rewrite Hs, Hx. reflexivity.
  - eexists. split; [reflexivity|]. split; [|exact Hh].
    destruct Hh as [Hs _]. rewrite Hs, Hx. reflexivity.
Qed.

(** The theorem at [cmd: ["make", "all"], mustSucceed: true] with a process
    that fails: no update, and an error that carries the command text. *)
Lemma C5_witness :
  snd (Run unifyTop osFalse topSchema docMake world0)
  = Returned ResNil (Some (ErrCommandFailed "make all" "exit status 1")).
Proof.
  destruct (C5_mustSucceed_policy unifyTop osFalse topSchema docMake world0
              (resolved "make" ["all"] docMake ["CC=gcc"]) "make all" true
              eq_refl eq_refl eq_refl) as (cmd' & p & _ & H).
  exact H.
Defined.

(** C6: for every [cmd] field of list kind: the empty list fails with the
    empty-command-list error, and [Run] then returns it with no process
    started; a list with an element that does not resolve to a string
    fails with the error of that conversion; and when the elements resolve
    to the strings [bin :: args], the resolved binary is the first element
    (the program is the one [os/exec] makes of it, the file found along PATH
    for a bare name, and the argument vector starts with the element as
    written), the args are the remaining elements in their order and the
    display form is the elements joined by single spaces, that command being
    returned whenever the binary is not the empty string and the environment
    resolves. *)
Theorem C6_list_cmd ctx elems :
  Task.Err ctx = [] ->
  LookupPath (Task.Obj ctx) "cmd" = VList elems ->
  (elems = [] ->
     mkCommand ctx = Fails ErrEmptyCommandList
     /\ forall Unify os c w,
          Run Unify os c ctx w
          = (w, Returned ResZeroValue (Some ErrEmptyCommandList)))
  /\ (List.Exists (fun e => isString e = false) elems ->
      exists err, mkCommand ctx = Fails (ErrValue err))
  /\ (forall bin args,
        Forall2 (fun e s => Default e = VString s) elems (bin :: args) ->
        (forall cmd doc, mkCommand ctx = Returns (cmd, doc) ->
           Path cmd = program bin /\ Args cmd = bin :: args
           /\ doc = String.concat " " (bin :: args))
        /\ (forall cmdEnv,
              bin <> "" ->
              resolveEnv (LookupPath (Task.Obj ctx) "env") [] = Returns cmdEnv ->
              mkCommand ctx
              = Returns (resolved bin args ctx cmdEnv,
                         String.concat " " (bin :: args)))).
Proof.
  intros Herr Hcmd.
  pose proof (mkCommand_list ctx elems Herr Hcmd) as Hmk.
  split; [|split].
  - intros ->. split; [exact Hmk|].
    intros Unify os c w. apply Run_unresolved. exact Hmk.
  - intros Hex. destruct elems as [|first rest]; [inversion Hex|].
    pose proof (String_isString first) as Hs.
    destruct (isString first) eqn:Hf.
    + destruct Hs as (s & _ & Hs). rewrite Hs in Hmk.
      assert (Hrest : List.Exists (fun e => isString e = false) rest).
      { inversion Hex as [? ? Hhd|? ? Htl]; subst; [congruence|assumption]. }
      destruct (cmdListLoop_not_string rest Hrest [] s) as [err Hl].
      rewrite Hl in Hmk. exists err. exact Hmk.
    + destruct Hs as (err & Hs). rewrite Hs in Hmk. exists err. exact Hmk.
  - intros bin args Hall.
    inversion Hall as [|first s rest ss Hfirst Hrest]; subst.
    rewrite (String_resolved first bin Hfirst) in Hmk.
    rewrite (cmdListLoop_strings rest args Hrest [] bin) in Hmk.
    rewrite fold_doc_concat in Hmk.
    cbn [mbind Outcome_bind app] in Hmk.
    split.
    + intros cmd doc H. rewrite Hmk in H.
      destruct (String.eqb bin ""); [discriminate H|].
      destruct (resolveEnv _ []) as [cmdEnv| |]; cbn [mbind Outcome_bind] in H;
        try discriminate H.
      injection H as <- <-. auto.
    + intros cmdEnv Hbin He. apply String.eqb_neq in Hbin.
      rewrite Hmk, Hbin, He. reflexivity.
Qed.

(** The theorem at [cmd: ["make", "all"]]. *)
Lemma C6_witness :
  mkCommand docMake
  = Returns ({| Path := program "make"; Args := ["make"; "all"]; Dir := "/src";
                Env := ["CC=gcc"]; Stdin := None; Stdout := None;
                Stderr := None |}, "make all").
Proof.
  destruct (C6_list_cmd docMake [VString "make"; VString "all"]
              eq_refl eq_refl) as (_ & _ & H).
  destruct (H "make" ["all"]) as [_ H'].
  - repeat constructor.
  - apply H'; [discriminate | reflexivity].
Defined.

(** C7, as the spec words it, fails twice, each time with stderr capture
    requested, a process that exits with an error and an empty capture
    buffer.  With [mustSucceed: true] there is no result to hold a stderr
    value: [Run] returns no update document.  And with a declared kind that
    is neither string nor bytes ([stderr: int]) the stderr value of the
    result is null, not the text of the process error. *)
Lemma C7_counterexample :
  (presentNotNull (LookupPath (Task.Obj docStderrStrict) "stderr") = true
   /\ osFalse (processOf world0 (wired docStderrStrict (Task.Obj docStderrStrict) cmdFalse))
      = {| wroteStdout := []; wroteStderr := [];
           exitErr := Some "exit status 1" |}
   /\ snd (Run unifyTop osFalse topSchema docStderrStrict world0)
      = Returned ResNil (Some (ErrCommandFailed "false" "exit status 1")))
  /\ (presentNotNull (LookupPath (Task.Obj docStderrInt) "stderr") = true
      /\ snd (Run unifyTop osFalse topSchema docStderrInt world0)
         = Returned (ResUpdate (<["stderr" := AnyNil]>
                                  {[ "success" := AnyBool false ]})) None
      /\ AnyNil <> AnyString "exit status 1"
      /\ AnyNil <> AnyBytes (list_byte_of_string "exit status 1")).
Proof. repeat split; try reflexivity; discriminate. Qed.

(** C7 (amended): if stderr capture was requested, the process exited with
    an error, the capture buffer is empty and [mustSucceed] is false, then
    [Run] returns an update document whose stderr value is the textual
    description of the process error typed by the declared kind of the
    field: that text as a string when the kind is string, its bytes when
    the kind is bytes. *)
Theorem C7_stderr_error_text Unify os c ctx w cmd doc text :
  mkCommand ctx = Returns (cmd, doc) ->
  stdinReadable (Unify (Task.Obj ctx) (schema c)) = true ->
  Cue.Bool (LookupPath (Unify (Task.Obj ctx) (schema c)) "mustSucceed")
  = (false, None) ->
  presentNotNull (LookupPath (Unify (Task.Obj ctx) (schema c)) "stderr") = true ->
  exitErr (os (processOf w (wired ctx (Unify (Task.Obj ctx) (schema c)) cmd)))
  = Some text ->
  wroteStderr (os (processOf w (wired ctx (Unify (Task.Obj ctx) (schema c)) cmd)))
  = [] ->
  exists update,
    snd (Run Unify os c ctx w) = Returned (ResUpdate update) None
    /\ (IncompleteKind (LookupPath (Unify (Task.Obj ctx) (schema c)) "stderr")
        = StringKind ->
        update !! "stderr" = Some (AnyString text))
    /\ (IncompleteKind (LookupPath (Unify (Task.Obj ctx) (schema c)) "stderr")
        = BytesKind ->
        update !! "stderr" = Some (AnyBytes (list_byte_of_string text))).
Proof.
  intros Hmk Hin Hb Hcap Hx Hwrote.
  rewrite (Run_process Unify os c ctx w cmd doc false Hmk Hin Hb).
  set (object := Unify (Task.Obj ctx) (schema c)) in *.
  set (x := os (processOf w (wired ctx object cmd))) in *.
  cbn [snd]. unfold finish. rewrite Hx.
  exists (updateOf object x). split; [reflexivity|].
  destruct (updateOf_holds object x) as (_ & _ & Herr & _).
  rewrite Hcap in Herr. rewrite Herr.
  unfold typed, finalStderr. rewrite Hx, Hwrote.
  split; intros Hk; rewrite Hk; cbn.
  - rewrite string_of_list_byte_of_string. reflexivity.
  - reflexivity.
Qed.

(** The theorem at [cmd: ["false"], stderr: string, mustSucceed: false]. *)
Lemma C7_witness :
  exists update,
    snd (Run unifyTop osFalse topSchema docStderrString world0)
    = Returned (ResUpdate update) None
    /\ update !! "stderr" = Some (AnyString "exit status 1").
Proof.
  destruct (C7_stderr_error_text unifyTop osFalse topSchema docStderrString
              world0 cmdFalse "false" "exit status 1"
              eq_refl eq_refl eq_refl eq_refl eq_refl eq_refl)
    as (update & Hrun & Hstring & _).
  exists update. split; [exact Hrun | apply Hstring; reflexivity].
Defined.

(** An update document comes from a process that was started, and is the
    document built from what that process did. *)
Lemma Run_update_inv Unify os c ctx w update :
  snd (Run Unify os c ctx w) = Returned (ResUpdate update) None ->
  exists cmd p,
    started (fst (Run Unify os c ctx w)) = started w ++ [(cmd, p)]
    /\ update = updateOf (Unify (Task.Obj ctx) (schema c)) (os p).
Proof.
  intros Hres.
  destruct (Run_cases Unify os c ctx w) as
    [msg Hmk|err Hmk|cmd0 doc e Hmk Hin|cmd0 doc b e Hmk Hin Hb
    |cmd0 doc ms Hmk Hin Hb]; cbn [fst snd] in *; try discriminate Hres.
  eexists _, _. split; [reflexivity|].
  unfold finish in Hres.
  destruct (exitErr _); [destruct ms; [discriminate Hres|]|];
    injection Hres as <-; reflexivity.
Qed.

(** C8: whenever [Run] returns an update document, it comes from the one
    process [Run] started, and for each captured output stream the value
    under its key is the contents of its buffer (for stdout what the child
    wrote to it; for stderr what the child wrote, or the text of the
    process error if it wrote nothing) as a string when the declared kind
    of the requesting field is string, as a byte sequence when it is bytes,
    and null for any other declared kind. *)
Theorem C8_stream_typing Unify os c ctx w update :
  snd (Run Unify os c ctx w) = Returned (ResUpdate update) None ->
  exists cmd p,
    started (fst (Run Unify os c ctx w)) = started w ++ [(cmd, p)]
    /\ forall name buf,
         (name = "stdout" /\ Stdout cmd = Some (OutBuffer BufStdout)
          /\ buf = wroteStdout (os p))
         \/ (name = "stderr" /\ Stderr cmd = Some (OutBuffer BufStderr)
             /\ buf = finalStderr (os p)) ->
         let kind :=
           IncompleteKind (LookupPath (Unify (Task.Obj ctx) (schema c)) name) in
         (kind = StringKind ->
          update !! name = Some (AnyString (string_of_list_byte buf)))
         /\ (kind = BytesKind -> update !! name = Some (AnyBytes buf))
         /\ (kind <> StringKind -> kind <> BytesKind ->
             update !! name = Some AnyNil).
Proof.
  intros Hres.
  destruct (Run_update_inv Unify os c ctx w update Hres)
    as (cmd & p & Hst & ->).
  exists cmd, p. split; [exact Hst|].
  destruct (Run_started_inv Unify os c ctx w cmd p Hst)
    as (cmd0 & doc & ms & _ & _ & _ & Hcmd & _).
  set (object := Unify (Task.Obj ctx) (schema c)) in *.
  destruct (updateOf_holds object (os p)) as (_ & Hout & Herr & _).
  assert (Htyped : forall v buf,
            (IncompleteKind v = StringKind ->
             typed v buf = AnyString (string_of_list_byte buf))
            /\ (IncompleteKind v = BytesKind -> typed v buf = AnyBytes buf)
            /\ (IncompleteKind v <> StringKind -> IncompleteKind v <> BytesKind ->
                typed v buf = AnyNil)).
  { intros v buf. unfold typed. repeat split.
    - intros ->. reflexivity.
    - intros ->. reflexivity.
    - intros H1 H2. apply N.eqb_neq in H1, H2. rewrite H1, H2. reflexivity. }
  intros name buf [(-> & Hwire & ->)|(-> & Hwire & ->)] kind; subst kind cmd;
    unfold wired in Hwire; cbn [Stdout Stderr] in Hwire.
  - destruct (presentNotNull (LookupPath object "stdout")); [|discriminate Hwire].
    rewrite Hout.
    destruct (Htyped (LookupPath object "stdout") (wroteStdout (os p)))
      as (H1 & H2 & H3).
    repeat split; intros; f_equal; auto.
  - destruct (presentNotNull (LookupPath object "stderr")); [|discriminate Hwire].
    rewrite Herr.
    destruct (Htyped (LookupPath object "stderr") (finalStderr (os p)))
      as (H1 & H2 & H3).
    repeat split; intros; f_equal; auto.
Qed.

(** The theorem at [stdout: bytes, stderr: string | bytes]: stdout comes
    back as the bytes the child wrote, stderr as null. *)
Lemma C8_witness :
  exists update,
    snd (Run unifyTop osHello topSchema docTyped world0)
    = Returned (ResUpdate update) None
    /\ update !! "stdout" = Some (AnyBytes (list_byte_of_string "hello"))
    /\ update !! "stderr" = Some AnyNil.
Proof.
  eexists. split; [reflexivity|].
  destruct (C8_stream_typing unifyTop osHello topSchema docTyped world0 _ eq_refl)
    as (cmd & p & Hst & H).
  apply app_inv_head in Hst. injection Hst as <- <-.
  split.
  - apply (H "stdout" (list_byte_of_string "hello")); [|reflexivity].
    left. repeat split; reflexivity.
  - apply (H "stderr" []); [|discriminate|discriminate].
    right. repeat split; reflexivity.
Defined.

(** C9: an [env] given as a struct of string fields and the [env] given as
    the list of ["K=V"] strings with the same keys, values and order resolve
    to the same ordered environment, the ["K=V"] strings in that order; two
    documents that differ in nothing else resolve to the same command. *)
Theorem C9_env_struct_list ctx1 ctx2 kvs :
  Task.Err ctx1 = Task.Err ctx2 ->
  LookupPath (Task.Obj ctx1) "cmd" = LookupPath (Task.Obj ctx2) "cmd" ->
  LookupPath (Task.Obj ctx1) "dir" = LookupPath (Task.Obj ctx2) "dir" ->
  LookupPath (Task.Obj ctx1) "env" = envStruct kvs ->
  LookupPath (Task.Obj ctx2) "env" = envList kvs ->
  resolveEnv (envStruct kvs) []
  = Returns (map (fun kv => fst kv +:+ "=" +:+ snd kv) kvs)
  /\ resolveEnv (envList kvs) []
     = Returns (map (fun kv => fst kv +:+ "=" +:+ snd kv) kvs)
  /\ mkCommand ctx1 = mkCommand ctx2.
Proof.
  intros Herr Hcmd Hdir He1 He2.
  pose proof (resolveEnv_struct kvs []) as Hs.
  pose proof (resolveEnv_list kvs []) as Hl.
  cbn [app] in Hs, Hl.
  repeat split; try assumption.
  apply mkCommand_ext; try assumption.
  rewrite He1, He2, Hs, Hl. reflexivity.
Qed.

(** The theorem at [env: {WHO: "World", WHAT: "Hello"}] and
    [env: ["WHO=World", "WHAT=Hello"]]. *)
Lemma C9_witness :
  mkCommand docEnvStruct = mkCommand docEnvList
  /\ mkCommand docEnvList
     = Returns ({| Path := program "echo"; Args := ["echo"]; Dir := "";
                   Env := ["WHO=World"; "WHAT=Hello"]; Stdin := None;
                   Stdout := None; Stderr := None |}, "echo").
Proof.
  split; [|reflexivity].
  apply (C9_env_struct_list docEnvStruct docEnvList
           [("WHO", "World"); ("WHAT", "Hello")]
           eq_refl eq_refl eq_refl eq_refl eq_refl).
Defined.

(** C10: whenever [Run] returns the invalid-bool error, the command had
    resolved and the stream wiring had been done without error (so
    [mustSucceed] is read after the wiring), yet no process was started and
    nothing was written: the outside state is the one [Run] was called in,
    and no update document is returned. *)
Theorem C10_invalid_bool_before_process Unify os c ctx w w' res e :
  Run Unify os c ctx w = (w', Returned res (Some (ErrInvalidBool e))) ->
  w' = w
  /\ started w' = started w
  /\ res = ResNil
  /\ (exists cmd doc, mkCommand ctx = Returns (cmd, doc))
  /\ stdinReadable (Unify (Task.Obj ctx) (schema c)) = true
  /\ snd (Cue.Bool (LookupPath (Unify (Task.Obj ctx) (schema c)) "mustSucceed"))
     = Some e.
Proof.
  intros Hrun.
  destruct (Run_cases Unify os c ctx w) as
    [msg Hmk|err Hmk|cmd0 doc e0 Hmk Hin|cmd0 doc b e0 Hmk Hin Hb
    |cmd0 doc ms Hmk Hin Hb]; try discriminate Hrun.
  - injection Hrun as <- <- ->.
    apply mkCommand_errors in Hmk. destruct Hmk.
  - injection Hrun as <- <- <-. rewrite Hb. eauto 10.
  - exfalso. unfold finish in Hrun.
    destruct (exitErr _); [destruct ms|]; discriminate Hrun.
Qed.

(** The theorem at [cmd: "echo hello", mustSucceed: "yes"]. *)
Lemma C10_witness :
  world0 = world0
  /\ started world0 = started world0
  /\ ResNil = ResNil
  /\ (exists cmd doc, mkCommand docMustSucceedString = Returns (cmd, doc))
  /\ stdinReadable
       (unifyTop (Task.Obj docMustSucceedString) (schema topSchema)) = true
  /\ snd (Cue.Bool
            (LookupPath
               (unifyTop (Task.Obj docMustSucceedString) (schema topSchema))
               "mustSucceed"))
     = Some (KindMismatch StringKind BoolKind).
Proof.
  apply (C10_invalid_bool_before_process unifyTop osHello topSchema
           docMustSucceedString world0 world0 ResNil
           (KindMismatch StringKind BoolKind)).
  reflexivity.
Defined.

(** * Further properties of the resolver *)

(** ** More on tokenisation *)

Section FieldsLoopMore.

Variable f : rune -> bool.

(** A field that is being read always comes out. *)
Lemma fieldsLoop_started l : forall acc, fieldsLoop f l (Some acc) <> [].
Proof.
  induction l as [|[r bs] l IH]; intros acc; simpl; [discriminate|].
  destruct (f r); [discriminate | apply IH].
Qed.

(** There is no field exactly when every rune is a separator. *)
Lemma fieldsLoop_nil l :
  fieldsLoop f l None = [] <-> forallb (fun c => f (fst c)) l = true.
Proof.
  induction l as [|[r bs] l IH]; simpl; [tauto|].
  destruct (f r); simpl; [exact IH|].
  split; [|discriminate]. intros H. exfalso. exact (fieldsLoop_started l bs H).
Qed.

(** The fields, put end to end, are the bytes of the runes that are no
    separators. *)
Lemma fieldsLoop_concat l : forall cur,
  concat (fieldsLoop f l cur)
  = (match cur with Some acc => acc | None => [] end)
    ++ concat (map snd (List.filter (fun c => negb (f (fst c))) l)).
Proof.
  induction l as [|[r bs] l IH]; intros cur.
  - simpl. destruct cur; simpl; rewrite ?app_nil_r; reflexivity.
  - simpl. destruct (f r); simpl.
    + destruct cur; simpl; rewrite IH; reflexivity.
    + rewrite IH. destruct cur; simpl; rewrite ?app_assoc; reflexivity.
Qed.

End FieldsLoopMore.

Lemma Fields_nil str : GoStrings.Fields str = [] <-> allSpace str = true.
Proof.
  unfold GoStrings.Fields, FieldsFunc, allSpace.
  rewrite <- fieldsLoop_nil.
  destruct (fieldsLoop IsSpace (ranged (list_ascii_of_string str)) None);
    simpl; split; intros H; try reflexivity; discriminate H.
Qed.

Lemma list_ascii_of_string_app a b :
  list_ascii_of_string (a +:+ b) = list_ascii_of_string a ++ list_ascii_of_string b.
Proof.
  induction a as [|x a IH]; [reflexivity|].
  change (x :: list_ascii_of_string (a +:+ b)
          = x :: (list_ascii_of_string a ++ list_ascii_of_string b)).
  rewrite IH. reflexivity.
Qed.

Lemma Fields_concat str :
  concat (map list_ascii_of_string (GoStrings.Fields str)) = withoutSpace str.
Proof.
  unfold GoStrings.Fields, FieldsFunc, withoutSpace.
  rewrite map_map.
  erewrite map_ext; [rewrite map_id|intros a; apply list_ascii_of_string_of_list_ascii].
  rewrite fieldsLoop_concat. reflexivity.
Qed.

Lemma concat_joined ws :
  list_ascii_of_string (String.concat " " ws)
  = joined (map list_ascii_of_string ws).
Proof.
  induction ws as [|w ws IH]; [reflexivity|].
  destruct ws as [|w2 ws]; [reflexivity|].
  change (String.concat " " (w :: w2 :: ws))
    with (w +:+ " " +:+ String.concat " " (w2 :: ws)).
  rewrite !list_ascii_of_string_app, IH. reflexivity.
Qed.

Lemma joined_ascii ws :
  Forall wordBytes ws -> Forall (fun c => byteN c < 0x80) (joined ws).
Proof.
  induction 1 as [|w ws [_ Hw] _ IH]; [constructor|].
  assert (Hwa : Forall (fun c => byteN c < 0x80) w).
  { eapply List.Forall_impl; [|exact Hw]. intros a [Ha _]. exact Ha. }
  destruct ws as [|w2 ws]; [exact Hwa|].
  change (joined (w :: w2 :: ws)) with (w ++ " "%char :: joined (w2 :: ws)).
  apply Forall_app. split; [exact Hwa|].
  constructor; [reflexivity | exact IH].
Qed.

Lemma single_concat w :
  concat (map snd (map (fun c => (byteN c, [c])) w)) = w.
Proof. induction w as [|c w IH]; [reflexivity|]. simpl. rewrite IH. reflexivity. Qed.

(** Words joined by single spaces split back into the words. *)
Lemma fieldsLoop_joined ws :
  Forall wordBytes ws ->
  fieldsLoop IsSpace (map (fun c => (byteN c, [c])) (joined ws)) None = ws.
Proof.
  induction 1 as [|w ws [Hne Hw] _ IH]; [reflexivity|].
  destruct w as [|c w]; [congruence|].
  inversion Hw as [|? ? [_ Hc] Hw']; subst.
  assert (Hrun : Forall (fun ch : rune * list ascii => IsSpace (fst ch) = false)
                   (map (fun c => (byteN c, [c])) w)).
  { apply List.Forall_map. eapply List.Forall_impl; [|exact Hw'].
    intros a [_ Ha]. exact Ha. }
  destruct ws as [|w2 ws].
  - cbn [joined map fieldsLoop fst]. rewrite Hc.
    rewrite <- (app_nil_r (map _ w)).
    rewrite fieldsLoop_run; [|exact Hrun|left; reflexivity].
    rewrite single_concat. reflexivity.
  - change (joined ((c :: w) :: w2 :: ws))
      with ((c :: w) ++ " "%char :: joined (w2 :: ws)).
    rewrite <- app_comm_cons. cbn [map fieldsLoop fst]. rewrite Hc.
    rewrite map_app. cbn [map].
    rewrite fieldsLoop_run;
      [|exact Hrun|right; eexists _, _, _; split; [reflexivity|reflexivity]].
    rewrite single_concat. cbn [fieldsLoop].
    change (IsSpace (byteN " "%char)) with true. cbn iota.
    rewrite IH. reflexivity.
Qed.

Lemma asciiWord_wordBytes w :
  asciiWord w = true -> wordBytes (list_ascii_of_string w).
Proof.
  unfold asciiWord, wordBytes. intros H. apply andb_true_iff in H.
  destruct H as [Hne Hall]. split.
  - destruct w; [discriminate Hne | discriminate].
  - apply List.Forall_forall. intros c Hc.
    rewrite forallb_forall in Hall. specialize (Hall c Hc).
    apply andb_true_iff in Hall. destruct Hall as [H1 H2].
    apply N.ltb_lt in H1. apply negb_true_iff in H2. auto.
Qed.

(** [strings.Fields] of words joined by single spaces gives the words. *)
Lemma Fields_words ws :
  Forall (fun w => asciiWord w = true) ws ->
  GoStrings.Fields (String.concat " " ws) = ws.
Proof.
  intros Hws.
  assert (Hwb : Forall wordBytes (map list_ascii_of_string ws)).
  { apply List.Forall_map. eapply List.Forall_impl; [|exact Hws].
    intros a. apply asciiWord_wordBytes. }
  unfold GoStrings.Fields, FieldsFunc.
  rewrite concat_joined, (ranged_ascii _ (joined_ascii _ Hwb)).
  rewrite (fieldsLoop_joined _ Hwb), map_map.
  erewrite map_ext; [apply map_id|].
  intros a. apply string_of_list_ascii_of_string.
Qed.

(** ** The shape of the resolver's outcomes *)

Lemma isNil_app_cons {A : Type} (l : list A) (x : A) : isNil (l ++ [x]) = false.
Proof. destruct l; reflexivity. Qed.

(** An error already recorded in the context, or a [cmd] field that is
    missing or erroneous, is returned before anything else is looked at. *)
Lemma mkCommand_context_error ctx :
  Task.Err ctx <> [] \/ isPresent (LookupPath (Task.Obj ctx) "cmd") = false ->
  mkCommand ctx = Fails (ErrTask (Task.Err (snd (Task.Lookup ctx "cmd"))))
  /\ exists es, Task.Err (snd (Task.Lookup ctx "cmd")) = Task.Err ctx ++ es.
Proof.
  intros H. unfold mkCommand, Task.Lookup.
  destruct (LookupPath (Task.Obj ctx) "cmd") eqn:Hv;
    cbn [Exists negb Cue.Err checkKind Task.addErr Task.Err snd isPresent] in *;
    rewrite ?isNil_app_cons; cbn [negb];
    try (split; [reflexivity | eexists; reflexivity]).
  all: destruct H as [H|H]; [|discriminate H].
  all: change (BottomKind =? BottomKind) with true; cbn iota; cbn [snd].
  all: destruct (Task.Err ctx) eqn:He; [congruence|].
  all: cbn [isNil negb]; split; [reflexivity | exists []; rewrite app_nil_r; reflexivity].
Qed.

Lemma Kind_of_String v :
  (Kind_of v =? StringKind) = true -> exists s, v = VString s.
Proof. destruct v; cbn; intros H; try discriminate H; eauto. Qed.

Lemma Kind_of_List v :
  (Kind_of v =? ListKind) = true -> exists l, v = VList l.
Proof. destruct v; cbn; intros H; try discriminate H; eauto. Qed.

(** A [cmd] that is neither a string nor a list leaves the binary empty. *)
Lemma mkCommand_other_kind ctx :
  Task.Err ctx = [] ->
  isPresent (LookupPath (Task.Obj ctx) "cmd") = true ->
  (Kind_of (LookupPath (Task.Obj ctx) "cmd") =? StringKind) = false ->
  (Kind_of (LookupPath (Task.Obj ctx) "cmd") =? ListKind) = false ->
  mkCommand ctx = Fails ErrEmptyCommand.
Proof.
  intros Herr Hp Hs Hl. unfold mkCommand.
  rewrite (Lookup_present ctx "cmd" _ eq_refl Hp).
  rewrite Herr, Hs, Hl. reflexivity.
Qed.

Lemma cmdListLoop_returns l : forall args doc args' doc',
  cmdListLoop l args doc = Returns (args', doc') ->
  exists ss, Forall2 (fun e s => Default e = VString s) l ss
             /\ args' = args ++ ss
             /\ doc' = fold_left (fun d s => d +:+ " " +:+ s) ss doc.
Proof.
  induction l as [|e l IH]; intros args doc args' doc' H.
  - injection H as <- <-. exists []. rewrite app_nil_r. repeat constructor.
  - cbn [cmdListLoop] in H. pose proof (String_isString e) as Hs.
    destruct (isString e).
    + destruct Hs as (s & Hd & Hs). rewrite Hs in H.
      destruct (IH _ _ _ _ H) as (ss & Hall & -> & ->).
      exists (s :: ss). rewrite <- app_assoc. repeat split; try reflexivity.
      constructor; assumption.
    + destruct Hs as (err & Hs). rewrite Hs in H. discriminate H.
Qed.

Lemma cmdListLoop_no_panic l : forall args doc msg,
  cmdListLoop l args doc <> Panics msg.
Proof.
  induction l as [|e l IH]; intros args doc msg; [discriminate|].
  cbn [cmdListLoop]. destruct (Cue.String e) as [s [err|]]; [discriminate|].
  apply IH.
Qed.

Lemma envListLoop_no_panic l : forall env msg, envListLoop l env <> Panics msg.
Proof.
  induction l as [|e l IH]; intros env msg; [discriminate|].
  cbn [envListLoop]. destruct (Cue.String (Default e)) as [s [err|]];
    [discriminate | apply IH].
Qed.

Lemma envFieldsLoop_no_panic l : forall env msg, envFieldsLoop l env <> Panics msg.
Proof.
  induction l as [|[label e] l IH]; intros env msg; [discriminate|].
  cbn [envFieldsLoop].
  destruct (Kind_of (Default e) =? StringKind);
    [cbn [mbind Outcome_bind]; apply IH|].
  destruct ((Kind_of (Default e) =? IntKind) || (Kind_of (Default e) =? FloatKind)
            || (Kind_of (Default e) =? NumberKind));
    cbn [mbind Outcome_bind]; [apply IH | discriminate].
Qed.

Lemma resolveEnv_no_panic env cmdEnv msg : resolveEnv env cmdEnv <> Panics msg.
Proof.
  unfold resolveEnv.
  destruct (envListLoop (Cue.List env) cmdEnv) as [env1|e|m] eqn:H1;
    cbn [mbind Outcome_bind].
  - apply envFieldsLoop_no_panic.
  - discriminate.
  - exfalso. exact (envListLoop_no_panic _ _ _ H1).
Qed.

Lemma fold_doc_prefix ss : forall doc,
  exists t, fold_left (fun d s => d +:+ " " +:+ s) ss doc = doc +:+ t.
Proof.
  induction ss as [|s ss IH]; intros doc.
  - exists "". induction doc as [|x d IHd]; [reflexivity|].
    change (String.String x d = String.String x (d +:+ "")). rewrite <- IHd.
    reflexivity.
  - cbn [fold_left]. destruct (IH (doc +:+ " " +:+ s)) as [t ->].
    exists ((" " +:+ s) +:+ t). rewrite <- !append_assoc. reflexivity.
Qed.

Lemma append_nonempty a b : a <> "" -> a +:+ b <> "".
Proof. destruct a; [congruence | discriminate]. Qed.

(** The only ways [mkCommand] returns a command: a string [cmd] with at
    least one token, or a list [cmd] of strings whose first is not empty;
    the context holds no earlier error and the environment resolves. *)
Lemma mkCommand_returns_inv ctx cmd doc :
  mkCommand ctx = Returns (cmd, doc) ->
  Task.Err ctx = []
  /\ exists bin args cmdEnv,
       bin <> ""
       /\ resolveEnv (LookupPath (Task.Obj ctx) "env") [] = Returns cmdEnv
       /\ cmd = resolved bin args ctx cmdEnv
       /\ ((exists str,
              LookupPath (Task.Obj ctx) "cmd" = VString str
              /\ GoStrings.Fields str = bin :: args /\ doc = str)
           \/ (exists elems,
                 LookupPath (Task.Obj ctx) "cmd" = VList elems
                 /\ Forall2 (fun e s => Default e = VString s) elems (bin :: args)
                 /\ doc = String.concat " " (bin :: args))).
Proof.
  intros Hmk.
  assert (Herr : Task.Err ctx = []).
  { destruct (Task.Err ctx) eqn:He; [reflexivity|].
    destruct (mkCommand_context_error ctx) as [H _];
      [left; rewrite He; discriminate | congruence]. }
  assert (Hp : isPresent (LookupPath (Task.Obj ctx) "cmd") = true).
  { destruct (isPresent _) eqn:Hp; [reflexivity|].
    destruct (mkCommand_context_error ctx) as [H _]; [right; exact Hp | congruence]. }
  split; [exact Herr|].
  destruct (Kind_of (LookupPath (Task.Obj ctx) "cmd") =? StringKind) eqn:Hs.
  - destruct (Kind_of_String _ Hs) as [str Hcmd].
    pose proof (mkCommand_string ctx str Herr Hcmd) as H. rewrite Hmk in H.
    pose proof (Fields_nonempty str) as Hne.
    destruct (GoStrings.Fields str) as [|bin args] eqn:Hf; [discriminate H|].
    destruct (resolveEnv _ []) as [cmdEnv| |] eqn:He; cbn [mbind Outcome_bind] in H;
      try discriminate H.
    injection H as -> ->. inversion Hne; subst.
    exists bin, args, cmdEnv. repeat split; try assumption.
    left. exists str. auto.
  - destruct (Kind_of (LookupPath (Task.Obj ctx) "cmd") =? ListKind) eqn:Hl.
    + destruct (Kind_of_List _ Hl) as [elems Hcmd].
      pose proof (mkCommand_list ctx elems Herr Hcmd) as H. rewrite Hmk in H.
      destruct elems as [|first rest]; [discriminate H|].
      pose proof (String_isString first) as Hfirst.
      destruct (isString first).
      * destruct Hfirst as (bin & Hd & Hfs). rewrite Hfs in H.
        destruct (cmdListLoop rest [] bin) as [[args doc']| |] eqn:Hloop;
          cbn [mbind Outcome_bind] in H; try discriminate H.
        destruct (cmdListLoop_returns _ _ _ _ _ Hloop) as (ss & Hall & -> & ->).
        cbn [app] in *.
        destruct (String.eqb bin "") eqn:Hb; [discriminate H|].
        destruct (resolveEnv _ []) as [cmdEnv| |] eqn:He;
          cbn [mbind Outcome_bind] in H; try discriminate H.
        injection H as -> ->. apply String.eqb_neq in Hb.
        exists bin, ss, cmdEnv. repeat split; try assumption.
        right. exists (first :: rest).
        split; [exact Hcmd|].
        split; [constructor; assumption | apply fold_doc_concat].
      * destruct Hfirst as (err & Hfs). rewrite Hfs in H. discriminate H.
    + rewrite (mkCommand_other_kind ctx Herr Hp Hs Hl) in Hmk. discriminate Hmk.
Qed.

(** [mkCommand] panics only on a string [cmd] without tokens. *)
Lemma mkCommand_panics_inv ctx msg :
  mkCommand ctx = Panics msg ->
  Task.Err ctx = []
  /\ msg = "runtime error: index out of range [0] with length 0"
  /\ exists str, LookupPath (Task.Obj ctx) "cmd" = VString str
                 /\ GoStrings.Fields str = [].
Proof.
  intros Hmk.
  assert (Herr : Task.Err ctx = []).
  { destruct (Task.Err ctx) eqn:He; [reflexivity|].
    destruct (mkCommand_context_error ctx) as [H _];
      [left; rewrite He; discriminate | congruence]. }
  assert (Hp : isPresent (LookupPath (Task.Obj ctx) "cmd") = true).
  { destruct (isPresent _) eqn:Hp; [reflexivity|].
    destruct (mkCommand_context_error ctx) as [H _]; [right; exact Hp | congruence]. }
  split; [exact Herr|].
  destruct (Kind_of (LookupPath (Task.Obj ctx) "cmd") =? StringKind) eqn:Hs.
  - destruct (Kind_of_String _ Hs) as [str Hcmd].
    pose proof (mkCommand_string ctx str Herr Hcmd) as H. rewrite Hmk in H.
    destruct (GoStrings.Fields str) as [|bin args] eqn:Hf.
    + injection H as ->. split; [reflexivity|]. exists str. auto.
    + exfalso. destruct (resolveEnv _ []) as [cmdEnv| |] eqn:He;
        cbn [mbind Outcome_bind] in H; try discriminate H.
      symmetry in H. injection H as H. subst.
      exact (resolveEnv_no_panic _ _ _ He).
  - exfalso.
    destruct (Kind_of (LookupPath (Task.Obj ctx) "cmd") =? ListKind) eqn:Hl.
    + destruct (Kind_of_List _ Hl) as [elems Hcmd].
      pose proof (mkCommand_list ctx elems Herr Hcmd) as H. rewrite Hmk in H.
      destruct elems as [|first rest]; [discriminate H|].
      destruct (Cue.String first) as [bin [err|]]; [discriminate H|].
      destruct (cmdListLoop rest [] bin) as [[args doc']| |] eqn:Hloop;
        cbn [mbind Outcome_bind] in H; try discriminate H.
      * destruct (String.eqb bin ""); [discriminate H|].
        destruct (resolveEnv _ []) as [cmdEnv| |] eqn:He;
          cbn [mbind Outcome_bind] in H; try discriminate H.
        symmetry in H. injection H as H. subst.
        exact (resolveEnv_no_panic _ _ _ He).
      * exact (cmdListLoop_no_panic _ _ _ _ Hloop).
    + rewrite (mkCommand_other_kind ctx Herr Hp Hs Hl) in Hmk. discriminate Hmk.
Qed.

(** * Further properties *)

(** X1: a command [mkCommand] returns is well formed: its argument vector
    starts with a binary that is not empty, its program is the one
    [os/exec] makes of that binary, its display form is not empty, its three
    streams are still unset, and the context held no error. *)
Theorem X1_resolved_command_well_formed ctx cmd doc :
  mkCommand ctx = Returns (cmd, doc) ->
  (exists bin args,
     Args cmd = bin :: args /\ bin <> "" /\ Path cmd = program bin)
  /\ doc <> ""
  /\ Stdin cmd = None /\ Stdout cmd = None /\ Stderr cmd = None
  /\ Task.Err ctx = [].
Proof.
  intros Hmk.
  destruct (mkCommand_returns_inv ctx cmd doc Hmk)
    as (Herr & bin & args & cmdEnv & Hbin & _ & -> & Hkind).
  cbn [resolved Path Args Stdin Stdout Stderr].
  split; [exists bin, args; auto|].
  repeat split; try assumption.
  destruct Hkind as [(str & _ & Hf & ->)|(elems & _ & _ & ->)].
  - intros ->. discriminate Hf.
  - destruct args as [|a args]; [exact Hbin|].
    change (String.concat " " (bin :: a :: args))
      with (bin +:+ " " +:+ String.concat " " (a :: args)).
    apply append_nonempty. exact Hbin.
Qed.

Lemma X1_witness :
  (exists bin args,
     Args (resolved "make" ["all"] docMake ["CC=gcc"]) = bin :: args
     /\ bin <> ""
     /\ Path (resolved "make" ["all"] docMake ["CC=gcc"]) = program bin)
  /\ "make all" <> ""
  /\ Stdin (resolved "make" ["all"] docMake ["CC=gcc"]) = None
  /\ Stdout (resolved "make" ["all"] docMake ["CC=gcc"]) = None
  /\ Stderr (resolved "make" ["all"] docMake ["CC=gcc"]) = None
  /\ Task.Err docMake = [].
Proof.
  apply (X1_resolved_command_well_formed docMake
           (resolved "make" ["all"] docMake ["CC=gcc"]) "make all").
  reflexivity.
Defined.

(** X2: [mkCommand] returns a command only for a string [cmd] with at least
    one token, whose tokens are then the argument vector and which is its
    own display form, or for a list [cmd] whose elements all resolve to
    strings, which are then the argument vector and, joined by single
    spaces, the display form. *)
Theorem X2_returns_only_for_string_or_list ctx cmd doc :
  mkCommand ctx = Returns (cmd, doc) ->
  (exists str,
     LookupPath (Task.Obj ctx) "cmd" = VString str
     /\ GoStrings.Fields str = Args cmd /\ doc = str)
  \/ (exists elems,
        LookupPath (Task.Obj ctx) "cmd" = VList elems
        /\ Forall2 (fun e s => Default e = VString s) elems (Args cmd)
        /\ doc = String.concat " " (Args cmd)).
Proof.
  intros Hmk.
  destruct (mkCommand_returns_inv ctx cmd doc Hmk)
    as (_ & bin & args & cmdEnv & _ & _ & -> & Hkind).
  cbn [resolved Args].
  destruct Hkind as [(str & H1 & H2 & H3)|(elems & H1 & H2 & H3)];
    [left | right]; eauto.
Qed.

Lemma X2_witness :
  (exists str,
     LookupPath (Task.Obj docMake) "cmd" = VString str
     /\ GoStrings.Fields str = ["make"; "all"] /\ "make all" = str)
  \/ (exists elems,
        LookupPath (Task.Obj docMake) "cmd" = VList elems
        /\ Forall2 (fun e s => Default e = VString s) elems ["make"; "all"]
        /\ "make all" = String.concat " " ["make"; "all"]).
Proof.
  apply (X2_returns_only_for_string_or_list docMake
           (resolved "make" ["all"] docMake ["CC=gcc"]) "make all").
  reflexivity.
Defined.

(** X3: [mkCommand] panics with the index error of line 142, the run-time
    error for indexing the empty result of [strings.Fields], exactly when
    the context holds no error and [cmd] is a string that is empty or all
    white space: a list [cmd], a [cmd] of any other kind and any [env]
    never raise it.  [Run] panics exactly when [mkCommand] does, with the
    same value, and leaves the outside state untouched. *)
Theorem X3_panic_exactly_on_blank_string ctx :
  (mkCommand ctx
   = Panics "runtime error: index out of range [0] with length 0" <->
   Task.Err ctx = []
   /\ exists str, LookupPath (Task.Obj ctx) "cmd" = VString str
                  /\ allSpace str = true)
  /\ (forall Unify os c w w' msg,
        Run Unify os c ctx w = (w', Panicked msg) <->
        w' = w /\ mkCommand ctx = Panics msg).
Proof.
  split.
  - split.
    + intros H. destruct (mkCommand_panics_inv ctx _ H) as (He & _ & str & Hc & Hf).
      split; [exact He|]. exists str. split; [exact Hc|].
      apply Fields_nil. exact Hf.
    + intros (He & str & Hc & Hs). rewrite (mkCommand_string ctx str He Hc).
      apply Fields_nil in Hs. rewrite Hs. reflexivity.
  - intros Unify os c w w' msg. split.
    + intros H.
      destruct (Run_cases Unify os c ctx w) as
        [m Hmk|err Hmk|cmd0 doc e Hmk Hin|cmd0 doc b e Hmk Hin Hb
        |cmd0 doc ms Hmk Hin Hb]; try discriminate H.
      * injection H as <- <-. auto.
      * exfalso. unfold finish in H.
        destruct (exitErr _); [destruct ms|]; discriminate H.
    + intros [-> H]. apply Run_panics. exact H.
Qed.

(** X4: an error already recorded in the context, or a [cmd] field that is
    missing or erroneous, makes [mkCommand] fail with the errors of the
    context, the earlier ones first; a missing [cmd] adds the
    could-not-find-field error. *)
Theorem X4_context_error_first ctx :
  Task.Err ctx <> [] \/ isPresent (LookupPath (Task.Obj ctx) "cmd") = false ->
  exists es,
    mkCommand ctx = Fails (ErrTask (Task.Err ctx ++ es))
    /\ (LookupPath (Task.Obj ctx) "cmd" = VAbsent ->
        es = [CouldNotFindField "cmd"])
    /\ (isPresent (LookupPath (Task.Obj ctx) "cmd") = true -> es = []).
Proof.
  intros H. destruct (mkCommand_context_error ctx H) as [Hmk [es Hes]].
  exists es. rewrite Hmk, Hes. split; [reflexivity|].
  unfold Task.Lookup in Hes. split.
  - intros Habs. rewrite Habs in Hes. cbn in Hes.
    apply app_inv_head in Hes. congruence.
  - intros Hp. destruct (LookupPath (Task.Obj ctx) "cmd"); try discriminate Hp;
      cbn in Hes; rewrite <- (app_nil_r (Task.Err ctx)) in Hes at 1;
      apply app_inv_head in Hes; congruence.
Qed.

Lemma X4_witness :
  exists es,
    mkCommand docNoCmd = Fails (ErrTask (Task.Err docNoCmd ++ es))
    /\ (LookupPath (Task.Obj docNoCmd) "cmd" = VAbsent ->
        es = [CouldNotFindField "cmd"])
    /\ (isPresent (LookupPath (Task.Obj docNoCmd) "cmd") = true -> es = []).
Proof.
  apply (X4_context_error_first docNoCmd). right. reflexivity.
Defined.

(** X5: a [cmd] that is present but neither a string nor a list (a number,
    a bool, bytes, a struct, null) fails with the empty-command error, and
    so does a list of strings whose first element is the empty string. *)
Theorem X5_empty_command ctx :
  Task.Err ctx = [] ->
  isPresent (LookupPath (Task.Obj ctx) "cmd") = true ->
  ((forall s, LookupPath (Task.Obj ctx) "cmd" <> VString s)
   /\ (forall l, LookupPath (Task.Obj ctx) "cmd" <> VList l))
  \/ (exists elems args,
        LookupPath (Task.Obj ctx) "cmd" = VList elems
        /\ Forall2 (fun e s => Default e = VString s) elems ("" :: args)) ->
  mkCommand ctx = Fails ErrEmptyCommand.
Proof.
  intros Herr Hp [[Hs Hl]|(elems & args & Hcmd & Hall)].
  - apply mkCommand_other_kind; try assumption.
    + destruct (Kind_of _ =? StringKind) eqn:H; [|reflexivity].
      destruct (Kind_of_String _ H) as [s Hv]. destruct (Hs s Hv).
    + destruct (Kind_of _ =? ListKind) eqn:H; [|reflexivity].
      destruct (Kind_of_List _ H) as [l Hv]. destruct (Hl l Hv).
  - rewrite (mkCommand_list ctx elems Herr Hcmd).
    inversion Hall as [|first s rest ss Hfirst Hrest]; subst.
    rewrite (String_resolved first "" Hfirst).
    rewrite (cmdListLoop_strings rest args Hrest [] "").
    reflexivity.
Qed.

Lemma X5_witness : mkCommand docCmdInt = Fails ErrEmptyCommand.
Proof.
  apply (X5_empty_command docCmdInt eq_refl eq_refl).
  left. split; discriminate.
Defined.

(** ** Working directory and environment *)

Lemma String_dirOf v : fst (Cue.String v) = dirOf v.
Proof. unfold Cue.String, dirOf. destruct (Default v); reflexivity. Qed.

Lemma String_listEntry e :
  match listEntry e with
  | Some s => Cue.String (Default e) = (s, None)
  | None => exists err, Cue.String (Default e) = ("", Some err)
  end.
Proof.
  unfold listEntry. pose proof (String_isString (Default e)) as H.
  unfold isString in H.
  destruct (Default (Default e)) eqn:Hd;
    try (destruct H as [err H]; exists err; exact H).
  destruct H as (s' & [= <-] & H). exact H.
Qed.

(** The list loop appends the entries in order, or fails at the first
    element that has none. *)
Lemma envListLoop_entries l : forall env,
  match mapM listEntry l with
  | Some ss => envListLoop l env = Returns (env ++ ss)
  | None =>
    exists pre e post err,
      l = pre ++ e :: post
      /\ Forall (fun e' => listEntry e' <> None) pre
      /\ listEntry e = None
      /\ envListLoop l env = Fails (ErrInvalidEnvWrapped err (Default e))
  end.
Proof.
  induction l as [|e l IH]; intros env.
  - cbn. rewrite app_nil_r. reflexivity.
  - cbn [mapM envListLoop]. pose proof (String_listEntry e) as He.
    destruct (listEntry e) as [s|] eqn:Hle; cbn [mbind option_bind].
    + rewrite He. specialize (IH (env ++ [s])).
      destruct (mapM listEntry l) as [ss|]; cbn [fmap option_fmap option_map mret option_ret mbind option_bind].
      * rewrite IH, <- app_assoc. reflexivity.
      * destruct IH as (pre & e' & post & err & -> & Hpre & He' & Hl).
        exists (e :: pre), e', post, err. repeat split; try assumption.
        constructor; [congruence | assumption].
    + destruct He as [err He]. rewrite He.
      exists [], e, l, err. repeat split; [constructor | assumption].
Qed.

Lemma Kind_of_envText v :
  (if Kind_of (Default v) =? StringKind then Returns (fst (Cue.String (Default v)))
   else if (Kind_of (Default v) =? IntKind) || (Kind_of (Default v) =? FloatKind)
           || (Kind_of (Default v) =? NumberKind)
        then Returns (Sprint (Default v))
        else Fails (ErrInvalidEnvValue (Default v)))
  = match envText v with
    | Some text => Returns text
    | None => Fails (ErrInvalidEnvValue (Default v))
    end.
Proof.
  unfold envText, Cue.String.
  destruct (Default v) as [| | | | | | | | | |k|d k]; try reflexivity.
Qed.

(** The struct loop appends the entries in field order, or fails at the
    first field whose value is no string and no number. *)
Lemma envFieldsLoop_entries l : forall env,
  match mapM fieldEntry l with
  | Some ss => envFieldsLoop l env = Returns (env ++ ss)
  | None =>
    exists pre f post,
      l = pre ++ f :: post
      /\ Forall (fun f' => fieldEntry f' <> None) pre
      /\ fieldEntry f = None
      /\ envFieldsLoop l env = Fails (ErrInvalidEnvValue (Default (snd f)))
  end.
Proof.
  induction l as [|[label e] l IH]; intros env.
  - cbn. rewrite app_nil_r. reflexivity.
  - cbn [mapM envFieldsLoop]. rewrite Kind_of_envText.
    change (fieldEntry (label, e))
      with (match envText e with
            | Some text => Some (label +:+ "=" +:+ text)
            | None => None
            end).
    destruct (envText e) as [text|] eqn:Ht; cbn [mbind option_bind Outcome_bind].
    + specialize (IH (env ++ [label +:+ "=" +:+ text])).
      destruct (mapM fieldEntry l) as [ss|];
        cbn [fmap option_fmap option_map mret option_ret mbind option_bind
             Outcome_bind].
      * rewrite IH, <- app_assoc. reflexivity.
      * destruct IH as (pre & f' & post & -> & Hpre & Hf' & Hl).
        exists ((label, e) :: pre), f', post. repeat split; try assumption.
        constructor; [|assumption].
        unfold fieldEntry. cbn [fst snd]. rewrite Ht. discriminate.
    + exists [], (label, e), l. repeat split; [constructor|].
      unfold fieldEntry. cbn [fst snd]. rewrite Ht. reflexivity.
Qed.

Lemma resolveEnv_VList l env : resolveEnv (VList l) env = envListLoop l env.
Proof.
  unfold resolveEnv. cbn [Cue.List Cue.Fields Default].
  destruct (envListLoop l env); reflexivity.
Qed.

Lemma resolveEnv_VStruct fs env : resolveEnv (VStruct fs) env = envFieldsLoop fs env.
Proof. reflexivity. Qed.

Lemma resolveEnv_other v env :
  isList v = false -> isStruct v = false -> resolveEnv v env = Returns env.
Proof.
  unfold isList, isStruct, resolveEnv, Cue.List, Cue.Fields.
  destruct (Default v); intros H1 H2; try discriminate; reflexivity.
Qed.

(** [mkCommand] with another [dir] field. *)
Lemma mkCommand_other_dir ctx1 ctx2 cmd doc :
  Task.Err ctx1 = Task.Err ctx2 ->
  LookupPath (Task.Obj ctx1) "cmd" = LookupPath (Task.Obj ctx2) "cmd" ->
  LookupPath (Task.Obj ctx1) "env" = LookupPath (Task.Obj ctx2) "env" ->
  mkCommand ctx1 = Returns (cmd, doc) ->
  mkCommand ctx2
  = Returns (setDir cmd (dirOf (LookupPath (Task.Obj ctx2) "dir")), doc).
Proof.
  intros Herr Hcmd Henv Hmk.
  destruct (mkCommand_returns_inv ctx1 cmd doc Hmk)
    as (He1 & bin & args & cmdEnv & Hbin & Hre & -> & Hkind).
  rewrite Herr in He1. rewrite Hcmd in Hkind. rewrite Henv in Hre.
  unfold resolved, setDir. cbn [Path Args Env Stdin Stdout Stderr].
  rewrite <- String_dirOf.
  destruct Hkind as [(str & Hc & Hf & ->)|(elems & Hc & Hall & ->)].
  - rewrite (mkCommand_string ctx2 str He1 Hc), Hf, Hre. reflexivity.
  - rewrite (mkCommand_list ctx2 elems He1 Hc).
    inversion Hall as [|first s rest ss Hfirst Hrest]; subst.
    rewrite (String_resolved first bin Hfirst).
    rewrite (cmdListLoop_strings rest args Hrest [] bin), fold_doc_concat.
    cbn [mbind Outcome_bind app].
    apply String.eqb_neq in Hbin. rewrite Hbin, Hre. reflexivity.
Qed.

(** X6: the [dir] field is optional and never makes resolution fail: the
    working directory of the returned command is the string [dir] resolves
    to, and the empty string when [dir] is absent or no string; a document
    that differs only in [dir] resolves to the same command with the other
    directory. *)
Theorem X6_dir_is_optional ctx1 ctx2 cmd doc :
  Task.Err ctx1 = Task.Err ctx2 ->
  LookupPath (Task.Obj ctx1) "cmd" = LookupPath (Task.Obj ctx2) "cmd" ->
  LookupPath (Task.Obj ctx1) "env" = LookupPath (Task.Obj ctx2) "env" ->
  mkCommand ctx1 = Returns (cmd, doc) ->
  Dir cmd = dirOf (LookupPath (Task.Obj ctx1) "dir")
  /\ mkCommand ctx2
     = Returns (setDir cmd (dirOf (LookupPath (Task.Obj ctx2) "dir")), doc).
Proof.
  intros Herr Hcmd Henv Hmk. split.
  - destruct (mkCommand_returns_inv ctx1 cmd doc Hmk)
      as (_ & bin & args & cmdEnv & _ & _ & -> & _).
    apply String_dirOf.
  - eapply mkCommand_other_dir; eassumption.
Qed.

Lemma X6_witness :
  Dir (resolved "ls" ["-l"; "/tmp"] docLs ["A=1"]) = "/"
  /\ mkCommand docLsDirInt
     = Returns (setDir (resolved "ls" ["-l"; "/tmp"] docLs ["A=1"]) "",
                "ls -l  /tmp").
Proof.
  apply (X6_dir_is_optional docLs docLsDirInt
           (resolved "ls" ["-l"; "/tmp"] docLs ["A=1"]) "ls -l  /tmp");
    reflexivity.
Defined.

(** X7: an [env] list is taken element by element, each after its default:
    when [mkCommand] returns, the environment of the command is exactly the
    strings the elements resolve to, in order and as they are (an entry is
    not checked for the form K=V); when some element does not resolve to a
    string no command is returned, and for a string [cmd] with a token the
    error is the invalid-environment error of the first such element. *)
Theorem X7_env_list_verbatim ctx l :
  LookupPath (Task.Obj ctx) "env" = VList l ->
  (forall cmd doc, mkCommand ctx = Returns (cmd, doc) ->
     mapM listEntry l = Some (Env cmd))
  /\ (mapM listEntry l = None ->
      (forall cmd doc, mkCommand ctx <> Returns (cmd, doc))
      /\ exists pre e post err,
           l = pre ++ e :: post
           /\ Forall (fun e' => listEntry e' <> None) pre
           /\ listEntry e = None
           /\ forall str bin args,
                Task.Err ctx = [] ->
                LookupPath (Task.Obj ctx) "cmd" = VString str ->
                GoStrings.Fields str = bin :: args ->
                mkCommand ctx = Fails (ErrInvalidEnvWrapped err (Default e))).
Proof.
  intros Henv. pose proof (envListLoop_entries l []) as Hl. split.
  - intros cmd doc Hmk.
    destruct (mkCommand_returns_inv ctx cmd doc Hmk)
      as (_ & bin & args & cmdEnv & _ & Hre & -> & _).
    rewrite Henv, resolveEnv_VList in Hre. cbn [resolved Env].
    destruct (mapM listEntry l) as [ss|].
    + rewrite Hl in Hre. injection Hre as <-. reflexivity.
    + destruct Hl as (pre & e & post & err & _ & _ & _ & Hl).
      rewrite Hl in Hre. discriminate Hre.
  - intros Hnone. rewrite Hnone in Hl.
    destruct Hl as (pre & e & post & err & Hsplit & Hpre & He & Hl). split.
    + intros cmd doc Hmk.
      destruct (mkCommand_returns_inv ctx cmd doc Hmk)
        as (_ & bin & args & cmdEnv & _ & Hre & _ & _).
      rewrite Henv, resolveEnv_VList, Hl in Hre. discriminate Hre.
    + exists pre, e, post, err. repeat split; try assumption.
      intros str bin args Herr Hcmd Hf.
      rewrite (mkCommand_string ctx str Herr Hcmd), Hf.
      rewrite Henv, resolveEnv_VList, Hl. reflexivity.
Qed.

Lemma X7_witness :
  (forall cmd doc, mkCommand docEnvPlain = Returns (cmd, doc) ->
     Some ["A=1"; "plain"] = Some (Env cmd))
  /\ mkCommand docEnvPlain
     = Returns (resolved "ls" [] docEnvPlain ["A=1"; "plain"], "ls").
Proof.
  split; [|reflexivity].
  apply (X7_env_list_verbatim docEnvPlain [VString "A=1"; VString "plain"]
           eq_refl).
Defined.

(** X8: an [env] struct is taken field by field in the order of the fields:
    a string value gives [LABEL=value], an int or float value gives
    [LABEL=] followed by its decimal text; when [mkCommand] returns, the
    environment is exactly these entries; a field of any other kind (bool,
    null, list, struct, an unresolved type) lets no command be returned, and
    for a string [cmd] with a token the error is the invalid-environment
    error of the first such field. *)
Theorem X8_env_struct_entries ctx fs :
  LookupPath (Task.Obj ctx) "env" = VStruct fs ->
  (forall cmd doc, mkCommand ctx = Returns (cmd, doc) ->
     mapM fieldEntry fs = Some (Env cmd))
  /\ (mapM fieldEntry fs = None ->
      (forall cmd doc, mkCommand ctx <> Returns (cmd, doc))
      /\ exists pre f post,
           fs = pre ++ f :: post
           /\ Forall (fun f' => fieldEntry f' <> None) pre
           /\ fieldEntry f = None
           /\ forall str bin args,
                Task.Err ctx = [] ->
                LookupPath (Task.Obj ctx) "cmd" = VString str ->
                GoStrings.Fields str = bin :: args ->
                mkCommand ctx = Fails (ErrInvalidEnvValue (Default (snd f)))).
Proof.
  intros Henv. pose proof (envFieldsLoop_entries fs []) as Hl. split.
  - intros cmd doc Hmk.
    destruct (mkCommand_returns_inv ctx cmd doc Hmk)
      as (_ & bin & args & cmdEnv & _ & Hre & -> & _).
    rewrite Henv, resolveEnv_VStruct in Hre. cbn [resolved Env].
    destruct (mapM fieldEntry fs) as [ss|].
    + rewrite Hl in Hre. injection Hre as <-. reflexivity.
    + destruct Hl as (pre & f & post & _ & _ & _ & Hl).
      rewrite Hl in Hre. discriminate Hre.
  - intros Hnone. rewrite Hnone in Hl.
    destruct Hl as (pre & f & post & Hsplit & Hpre & Hf & Hl). split.
    + intros cmd doc Hmk.
      destruct (mkCommand_returns_inv ctx cmd doc Hmk)
        as (_ & bin & args & cmdEnv & _ & Hre & _ & _).
      rewrite Henv, resolveEnv_VStruct, Hl in Hre. discriminate Hre.
    + exists pre, f, post. repeat split; try assumption.
      intros str bin args Herr Hcmd Hfields.
      rewrite (mkCommand_string ctx str Herr Hcmd), Hfields.
      rewrite Henv, resolveEnv_VStruct, Hl. reflexivity.
Qed.

Lemma X8_witness :
  (forall cmd doc, mkCommand docEnvNumbers = Returns (cmd, doc) ->
     Some ["N=-12"; "F=1.5"; "S=x"] = Some (Env cmd))
  /\ mkCommand docEnvNumbers
     = Returns (resolved "ls" [] docEnvNumbers ["N=-12"; "F=1.5"; "S=x"], "ls").
Proof.
  split; [|reflexivity].
  apply (X8_env_struct_entries docEnvNumbers
           [("N", VInt (-12)); ("F", VFloat "1.5"); ("S", VString "x")]
           eq_refl).
Defined.

(** X9: an [env] that is neither a list nor a struct (absent, a string, a
    number, null) is ignored without error: the document resolves as the
    same document without [env], and a returned command has an empty
    environment. *)
Theorem X9_env_of_other_kind_ignored ctx1 ctx2 :
  Task.Err ctx1 = Task.Err ctx2 ->
  LookupPath (Task.Obj ctx1) "cmd" = LookupPath (Task.Obj ctx2) "cmd" ->
  LookupPath (Task.Obj ctx1) "dir" = LookupPath (Task.Obj ctx2) "dir" ->
  isList (LookupPath (Task.Obj ctx1) "env") = false ->
  isStruct (LookupPath (Task.Obj ctx1) "env") = false ->
  LookupPath (Task.Obj ctx2) "env" = VAbsent ->
  mkCommand ctx1 = mkCommand ctx2
  /\ forall cmd doc, mkCommand ctx1 = Returns (cmd, doc) -> Env cmd = [].
Proof.
  intros Herr Hcmd Hdir Hl Hs Habs. split.
  - apply mkCommand_ext; try assumption.
    rewrite (resolveEnv_other _ [] Hl Hs), Habs. reflexivity.
  - intros cmd doc Hmk.
    destruct (mkCommand_returns_inv ctx1 cmd doc Hmk)
      as (_ & bin & args & cmdEnv & _ & Hre & -> & _).
    rewrite (resolveEnv_other _ [] Hl Hs) in Hre. injection Hre as <-.
    reflexivity.
Qed.

Lemma X9_witness :
  mkCommand docEnvString = mkCommand docLsPlain
  /\ forall cmd doc, mkCommand docEnvString = Returns (cmd, doc) -> Env cmd = [].
Proof.
  apply (X9_env_of_other_kind_ignored docEnvString docLsPlain); reflexivity.
Defined.

(** X10: the display form of a list command is a faithful command line when
    the elements are words (non-empty, ASCII, no white space): the string
    [cmd] made of the words joined by single spaces resolves to the very
    same outcome as the list [cmd] of the words, with the same binary,
    arguments and display form. *)
Theorem X10_words_list_and_string ctx1 ctx2 bin args :
  Task.Err ctx1 = [] ->
  Task.Err ctx2 = [] ->
  Forall (fun w => asciiWord w = true) (bin :: args) ->
  LookupPath (Task.Obj ctx1) "cmd" = VList (map VString (bin :: args)) ->
  LookupPath (Task.Obj ctx2) "cmd" = VString (String.concat " " (bin :: args)) ->
  LookupPath (Task.Obj ctx1) "dir" = LookupPath (Task.Obj ctx2) "dir" ->
  LookupPath (Task.Obj ctx1) "env" = LookupPath (Task.Obj ctx2) "env" ->
  mkCommand ctx1 = mkCommand ctx2
  /\ forall cmd doc, mkCommand ctx2 = Returns (cmd, doc) ->
       Args cmd = bin :: args /\ doc = String.concat " " (bin :: args).
Proof.
  intros He1 He2 Hw Hc1 Hc2 Hdir Henv.
  pose proof (mkCommand_string ctx2 _ He2 Hc2) as H2.
  rewrite (Fields_words _ Hw) in H2.
  pose proof (mkCommand_list ctx1 _ He1 Hc1) as H1.
  cbn [map] in H1. cbn [Cue.String Default] in H1.
  assert (Hall : Forall2 (fun e s => Default e = VString s) (map VString args) args).
  { clear. induction args; constructor; [reflexivity | assumption]. }
  rewrite (cmdListLoop_strings _ _ Hall [] bin), fold_doc_concat in H1.
  cbn [mbind Outcome_bind app] in H1.
  assert (Hbin : bin <> "").
  { inversion Hw as [|? ? Hb _]; subst. unfold asciiWord in Hb.
    apply andb_true_iff in Hb. destruct Hb as [Hb _].
    apply negb_true_iff in Hb. apply String.eqb_neq. exact Hb. }
  apply String.eqb_neq in Hbin. rewrite Hbin in H1.
  split.
  - rewrite H1, H2. unfold resolved. rewrite Hdir, Henv. reflexivity.
  - intros cmd doc Hmk. rewrite H2 in Hmk.
    destruct (resolveEnv _ []) as [cmdEnv| |]; cbn [mbind Outcome_bind] in Hmk;
      try discriminate Hmk.
    injection Hmk as <- <-. auto.
Qed.

Lemma X10_witness :
  mkCommand docWordsList = mkCommand docWordsString
  /\ forall cmd doc, mkCommand docWordsString = Returns (cmd, doc) ->
       Args cmd = ["ls"; "-l"; "/tmp"] /\ doc = "ls -l /tmp".
Proof.
  apply (X10_words_list_and_string docWordsList docWordsString "ls" ["-l"; "/tmp"]);
    try reflexivity.
  repeat constructor.
Defined.

(** X11: tokenising a string [cmd] drops white space and nothing else: no
    element of the argument vector is empty, and the elements put end to
    end are the bytes of the string without its white space runes, in
    order. *)
Theorem X11_tokens_keep_all_but_white_space ctx str cmd doc :
  LookupPath (Task.Obj ctx) "cmd" = VString str ->
  mkCommand ctx = Returns (cmd, doc) ->
  Forall (fun a => a <> "") (Args cmd)
  /\ concat (map list_ascii_of_string (Args cmd)) = withoutSpace str.
Proof.
  intros Hcmd Hmk.
  destruct (mkCommand_returns_inv ctx cmd doc Hmk)
    as (_ & bin & args & cmdEnv & _ & _ & -> & Hkind).
  cbn [resolved Args].
  destruct Hkind as [(str' & Hc & Hf & _)|(elems & Hc & _)];
    rewrite Hcmd in Hc; [|discriminate Hc].
  injection Hc as <-. rewrite <- Hf. split.
  - apply Fields_nonempty.
  - apply Fields_concat.
Qed.

Lemma X11_witness :
  Forall (fun a => a <> "") ["ls"; "-l"; "/tmp"]
  /\ concat (map list_ascii_of_string ["ls"; "-l"; "/tmp"])
     = withoutSpace "ls -l  /tmp".
Proof.
  apply (X11_tokens_keep_all_but_white_space docLs "ls -l  /tmp"
           (resolved "ls" ["-l"; "/tmp"] docLs ["A=1"]) "ls -l  /tmp");
    reflexivity.
Defined.

(** ** Further properties of the runner *)

Lemma Reader_unreadable v :
  isReadable v = false -> exists e, snd (Cue.Reader v) = Some e.
Proof.
  unfold isReadable, Cue.Reader.
  destruct (Default v) as [| | | | | | | | | |k|d k]; intros H;
    try discriminate H; cbn [snd]; try (cbn; eauto; fail).
  - cbn. destruct (N.land k _ =? 0); eauto.
  - cbn. destruct (N.land _ _ =? 0); eauto.
Qed.

(** X12: when stdin is requested from the document (the [stdin] field is
    present and not null) but the field has no string or bytes content,
    [Run] returns the invalid-input error with a [nil] result, starts no
    process and leaves the outside state untouched, whatever [mustSucceed]
    holds: the stdin wiring comes before [mustSucceed] is read. *)
Theorem X12_unreadable_stdin Unify os c ctx w cmd doc :
  mkCommand ctx = Returns (cmd, doc) ->
  presentNotNull (LookupPath (Unify (Task.Obj ctx) (schema c)) "stdin") = true ->
  isReadable (LookupPath (Unify (Task.Obj ctx) (schema c)) "stdin") = false ->
  exists e,
    Run Unify os c ctx w = (w, Returned ResNil (Some (ErrInvalidInput e))).
Proof.
  intros Hmk Hp Hr. eapply Run_invalid_input; [eassumption|].
  unfold stdinReadable. rewrite Hp.
  destruct (Reader_unreadable _ Hr) as [e ->]. reflexivity.
Qed.

Lemma X12_witness :
  exists e,
    Run unifyTop osHello topSchema docStdinType world0
    = (world0, Returned ResNil (Some (ErrInvalidInput e))).
Proof.
  apply (X12_unreadable_stdin unifyTop osHello topSchema docStdinType world0
           cmdCat "cat"); reflexivity.
Defined.

(** X13: what [Run] does to the outside state: it never changes the
    environment of the calling process; it only appends to what was
    written, and only to the stdout and stderr handles of the context; it
    starts at most one process; and when it starts none, the outside state
    is untouched. *)
Theorem X13_outside_state Unify os c ctx w :
  environ (fst (Run Unify os c ctx w)) = environ w
  /\ (exists l,
        written (fst (Run Unify os c ctx w)) = written w ++ l
        /\ Forall (fun hw => fst hw = Task.Stdout ctx \/ fst hw = Task.Stderr ctx) l)
  /\ (started (fst (Run Unify os c ctx w)) = started w
      \/ exists cp, started (fst (Run Unify os c ctx w)) = started w ++ [cp])
  /\ (started (fst (Run Unify os c ctx w)) = started w ->
      fst (Run Unify os c ctx w) = w).
Proof.
  assert (Hsame : environ w = environ w
    /\ (exists l, written w = written w ++ l
         /\ Forall (fun hw => fst hw = Task.Stdout ctx \/ fst hw = Task.Stderr ctx) l)
    /\ (started w = started w \/ exists cp, started w = started w ++ [cp])
    /\ (started w = started w -> w = w)).
  { repeat split; auto. exists []. rewrite app_nil_r. split; [reflexivity|constructor]. }
  destruct (Run_cases Unify os c ctx w) as
    [msg Hmk|err Hmk|cmd0 doc e Hmk Hin|cmd0 doc b e Hmk Hin Hb
    |cmd0 doc ms Hmk Hin Hb]; cbn [fst]; try exact Hsame.
  unfold after. cbn [environ written started]. repeat split.
  - eexists. split; [reflexivity|].
    unfold wired. cbn [Stdout Stderr].
    destruct (presentNotNull (LookupPath _ "stdout")),
             (presentNotNull (LookupPath _ "stderr"));
      cbn [toHandle app];
      repeat match goal with
             | |- Forall _ (_ :: _) => constructor; [cbn [fst]; auto|]
             end; constructor.
  - right. eexists. reflexivity.
  - intros H. exfalso. apply (f_equal (@length _)) in H.
    rewrite length_app in H. simpl in H. lia.
Qed.

(** X14: capture replaces passthrough.  When [Run] starts the process, the
    bytes the child writes to a captured stream reach no ambient handle,
    and the bytes it writes to a stream that is not captured are written to
    the handle of the context for that stream, stdout before stderr. *)
Theorem X14_capture_replaces_passthrough Unify os c ctx w cmd p :
  started (fst (Run Unify os c ctx w)) = started w ++ [(cmd, p)] ->
  written (fst (Run Unify os c ctx w))
  = written w ++ passthrough ctx (Unify (Task.Obj ctx) (schema c)) (os p).
Proof.
  intros Hst.
  destruct (Run_started_inv Unify os c ctx w cmd p Hst)
    as (cmd0 & doc & ms & Hmk & Hin & Hb & -> & ->).
  rewrite (Run_process Unify os c ctx w cmd0 doc ms Hmk Hin Hb).
  cbn [fst]. unfold after, passthrough, wired. cbn [written Stdout Stderr].
  destruct (presentNotNull (LookupPath _ "stdout")),
           (presentNotNull (LookupPath _ "stderr")); reflexivity.
Qed.

Lemma X14_witness :
  written (fst (Run unifyTop osComplain topSchema docStderrString world0))
  = written world0
    ++ passthrough docStderrString
         (unifyTop (Task.Obj docStderrString) (schema topSchema))
         (osComplain (processOf world0 cmdFalseWired)).
Proof.
  apply (X14_capture_replaces_passthrough unifyTop osComplain topSchema
           docStderrString world0 cmdFalseWired (processOf world0 cmdFalseWired)).
  reflexivity.
Defined.

(** X15: the text of the process error stands in only for an empty buffer.
    In an update document of a run with stderr captured, whenever the child
    wrote something to stderr, or the process succeeded, the stderr value
    is what the child wrote (typed by the declared kind) and nothing of the
    error text is added. *)
Theorem X15_stderr_kept_as_written Unify os c ctx w update :
  snd (Run Unify os c ctx w) = Returned (ResUpdate update) None ->
  presentNotNull (LookupPath (Unify (Task.Obj ctx) (schema c)) "stderr") = true ->
  exists cmd p,
    started (fst (Run Unify os c ctx w)) = started w ++ [(cmd, p)]
    /\ (wroteStderr (os p) <> [] \/ exitErr (os p) = None ->
        update !! "stderr"
        = Some (typed (LookupPath (Unify (Task.Obj ctx) (schema c)) "stderr")
                      (wroteStderr (os p)))).
Proof.
  intros Hres Hcap.
  destruct (Run_update_inv Unify os c ctx w update Hres) as (cmd & p & Hst & ->).
  exists cmd, p. split; [exact Hst|]. intros Hkeep.
  destruct (updateOf_holds (Unify (Task.Obj ctx) (schema c)) (os p))
    as (_ & _ & Herr & _).
  rewrite Hcap in Herr. rewrite Herr. do 2 f_equal.
  unfold finalStderr.
  destruct Hkeep as [Hw|Hx].
  - destruct (exitErr (os p)); [|reflexivity].
    destruct (wroteStderr (os p)); [congruence | reflexivity].
  - rewrite Hx. reflexivity.
Qed.

Lemma X15_witness :
  exists update,
    snd (Run unifyTop osComplain topSchema docStderrString world0)
    = Returned (ResUpdate update) None
    /\ update !! "stderr" = Some (AnyString "no such file").
Proof.
  eexists. split; [reflexivity|].
  destruct (X15_stderr_kept_as_written unifyTop osComplain topSchema
              docStderrString world0 _ eq_refl eq_refl) as (cmd & p & _ & H).
  rewrite H; [reflexivity | left; discriminate].
Defined.

(** X16: the shape of what [Run] returns.  It returns no error exactly
    when its result is an update document; the result is the zero document
    value exactly when the resolver failed, and the error is then the
    resolver's; a [nil] result always comes with one of the three errors
    [Run] makes itself (invalid input, invalid bool, command failed). *)
Theorem X16_result_shape Unify os c ctx w w' res err :
  Run Unify os c ctx w = (w', Returned res err) ->
  (err = None <-> exists update, res = ResUpdate update)
  /\ (res = ResZeroValue <-> exists e, mkCommand ctx = Fails e /\ err = Some e)
  /\ (res = ResNil -> exists e, err = Some e /\ ~ resolverError e).
Proof.
  intros Hrun.
  destruct (Run_cases Unify os c ctx w) as
    [msg Hmk|e0 Hmk|cmd0 doc e0 Hmk Hin|cmd0 doc b e0 Hmk Hin Hb
    |cmd0 doc ms Hmk Hin Hb]; try discriminate Hrun.
  2-3: rewrite Hmk.
  4: rewrite Hmk; unfold finish in Hrun;
     destruct (exitErr _) as [text|]; [destruct ms|].
  all: injection Hrun as <- <- <-; repeat split.
  all: first [ discriminate
             | intros [u H]; discriminate H
             | intros (e & H & _); discriminate H
             | intros _; eexists; split; [reflexivity | cbn; tauto]
             | eauto ].
Qed.

Lemma X16_witness :
  (Some (ErrCommandFailed "make all" "exit status 1") = None <->
   exists update, ResNil = ResUpdate update)
  /\ (ResNil = ResZeroValue <->
      exists e, mkCommand docMake = Fails e
                /\ Some (ErrCommandFailed "make all" "exit status 1") = Some e)
  /\ (ResNil = ResNil ->
      exists e, Some (ErrCommandFailed "make all" "exit status 1") = Some e
                /\ ~ resolverError e).
Proof.
  apply (X16_result_shape unifyTop osFalse topSchema docMake world0
           (fst (Run unifyTop osFalse topSchema docMake world0))).
  reflexivity.
Defined.

(** X17: the schema does not reach the resolver.  [cmd], [dir] and [env]
    are read from the working object of the context, not from the object
    merged with the schema: whatever the engine, the schema and the process
    behaviour, two runs of the same context from the same outside state
    start the same program with the same arguments, working directory and
    environment. *)
Theorem X17_schema_does_not_reach_resolver
    Unify1 os1 c1 Unify2 os2 c2 ctx w cmd1 p1 cmd2 p2 :
  started (fst (Run Unify1 os1 c1 ctx w)) = started w ++ [(cmd1, p1)] ->
  started (fst (Run Unify2 os2 c2 ctx w)) = started w ++ [(cmd2, p2)] ->
  procPath p1 = procPath p2 /\ procArgs p1 = procArgs p2
  /\ procDir p1 = procDir p2 /\ procEnv p1 = procEnv p2.
Proof.
  intros H1 H2.
  destruct (Run_started_inv Unify1 os1 c1 ctx w cmd1 p1 H1)
    as (cmd0 & doc & ms & Hmk & _ & _ & -> & ->).
  destruct (Run_started_inv Unify2 os2 c2 ctx w cmd2 p2 H2)
    as (cmd0' & doc' & ms' & Hmk' & _ & _ & -> & ->).
  rewrite Hmk in Hmk'. injection Hmk' as <- <-.
  repeat split.
Qed.

Lemma X17_witness :
  procPath (processOf world0 cmdEnvWired) = procPath (processOf world0 cmdEnvWired)
  /\ procArgs (processOf world0 cmdEnvWired) = procArgs (processOf world0 cmdEnvWired)
  /\ procDir (processOf world0 cmdEnvWired) = procDir (processOf world0 cmdEnvWired)
  /\ procEnv (processOf world0 cmdEnvWired) = procEnv (processOf world0 cmdEnvWired).
Proof.
  apply (X17_schema_does_not_reach_resolver
           unifyTop osHello topSchema unifySchemaFields osFalse schemaStrict
           docEnv world0 cmdEnvWired _ cmdEnvWired _);
    reflexivity.
Defined.

(** X19: what the resolver reads of the task context is its execution
    context (handed to [exec.CommandContext]), its error and the fields
    [cmd], [dir] and [env] of the working object: two contexts that agree on
    these resolve to the same outcome, whatever their ambient handles and
    their other fields ([stdin], [stdout], [stderr], [mustSucceed]) are. *)
Theorem X19_resolver_inputs ctx1 ctx2 :
  Task.Context_ ctx1 = Task.Context_ ctx2 ->
  Task.Err ctx1 = Task.Err ctx2 ->
  LookupPath (Task.Obj ctx1) "cmd" = LookupPath (Task.Obj ctx2) "cmd" ->
  LookupPath (Task.Obj ctx1) "dir" = LookupPath (Task.Obj ctx2) "dir" ->
  LookupPath (Task.Obj ctx1) "env" = LookupPath (Task.Obj ctx2) "env" ->
  mkCommand ctx1 = mkCommand ctx2.
Proof.
  intros _ Herr Hcmd Hdir Henv. apply mkCommand_ext; try assumption.
  rewrite Henv. reflexivity.
Qed.

Lemma X19_witness : mkCommand docEcho = mkCommand docStdoutNull.
Proof.
  apply (X19_resolver_inputs docEcho docStdoutNull); reflexivity.
Defined.

(** X20: exposing a captured stdout as a string loses no byte.  In an
    update document of a run with stdout captured under the declared kind
    string, the stdout value is a string whose bytes are exactly the bytes
    the child wrote, also when they are no valid text. *)
Theorem X20_stdout_string_keeps_bytes Unify os c ctx w update :
  snd (Run Unify os c ctx w) = Returned (ResUpdate update) None ->
  presentNotNull (LookupPath (Unify (Task.Obj ctx) (schema c)) "stdout") = true ->
  IncompleteKind (LookupPath (Unify (Task.Obj ctx) (schema c)) "stdout")
  = StringKind ->
  exists cmd p s,
    started (fst (Run Unify os c ctx w)) = started w ++ [(cmd, p)]
    /\ update !! "stdout" = Some (AnyString s)
    /\ list_byte_of_string s = wroteStdout (os p).
Proof.
  intros Hres Hcap Hkind.
  destruct (Run_update_inv Unify os c ctx w update Hres) as (cmd & p & Hst & ->).
  exists cmd, p, (string_of_list_byte (wroteStdout (os p))).
  split; [exact Hst|].
  destruct (updateOf_holds (Unify (Task.Obj ctx) (schema c)) (os p))
    as (_ & Hout & _).
  rewrite Hcap in Hout. rewrite Hout. unfold typed. rewrite Hkind.
  split; [reflexivity | apply list_byte_of_string_of_list_byte].
Qed.

Lemma X20_witness :
  exists cmd p s,
    started (fst (Run unifyTop osHello topSchema docCapture world0))
    = started world0 ++ [(cmd, p)]
    /\ (<["stdout" := AnyString "hello"]> {[ "success" := AnyBool true ]}
          : gmap string Any) !! "stdout" = Some (AnyString s)
    /\ list_byte_of_string s = wroteStdout (osHello p).
Proof.
  apply (X20_stdout_string_keeps_bytes unifyTop osHello topSchema docCapture
           world0); reflexivity.
Defined.
